(** * Subformer SDK: the request pipeline and the job polling loop

    A shallow embedding of [src/errors.ts] and of [src/client.ts]
    (constructor, [request], [handleError], [transformDates],
    [waitForJob] and the public methods), followed by the properties
    the specification states about them and by further properties of
    the code.

    Conventions of the embedding.
    - A decoded JSON document ([await response.json()]) is a [Json] tree;
      the values the client hands back, which may hold [Date] objects and
      [undefined], are [JsValue] trees.
    - A record is the list of its own properties in [Object.entries]
      order, together with its prototype when that has been replaced.
      Property writes [result[key] = v] are those of Node.js, Bun and
      the browsers: they create or overwrite an own data property, but
      for the name [__proto__], which is inherited as an accessor from
      [Object.prototype] (ECMA-262 20.1.3.8) and sets the prototype.
    - A JSON number is carried by its decimal text, [Number::toString];
      the client never computes with a number of a response.  Status
      codes, clock readings and the numeric options of the operations
      are integers, standing for the numbers that hold them exactly
      (safe integers, which [String] prints in full).
    - The transport and the clock are an environment of oracles; the
      effects of a call are threaded through an explicit [World].
    - [Client.request] is [request] from the timer on, for a URL in
      normal form; [Complete.request] is [request] from its first line,
      with the URL parser of the runtime as a parameter.  The
      serialization of a request body is left to the transport. *)

From Stdlib Require Import String Ascii List ZArith Bool Lia PeanoNat.
From Stdlib Require Import DecimalString.
Import ListNotations.
Open Scope string_scope.

Set Warnings "-register-all".

(* ================================================================== *)
(** * JavaScript values and the runtime operations the client relies on *)
(* ================================================================== *)

Module JS.

(** What [JSON.parse] can return. *)
Inductive Json : Type :=
| JNull
| JBool (b : bool)
| JNumber (text : string)
| JString (s : string)
| JArray (items : list Json)
| JObject (fields : list (string * Json)).

(** What the client returns to its caller.  [VDate s] is [new Date(s)].
    [VObject fields] is an object that has the prototype every object
    literal has, [Object.prototype]; [VObjectWith prototype fields] is
    one whose prototype has been replaced, by [null] or by another
    object. *)
Inductive JsValue : Type :=
| VUndefined
| VNull
| VBool (b : bool)
| VNumber (text : string)
| VString (s : string)
| VArray (items : list JsValue)
| VObject (fields : list (string * JsValue))
| VObjectWith (prototype : JsValue) (fields : list (string * JsValue))
| VDate (source : string).

(** The same value, seen as a [JsValue]. *)
Fixpoint of_json (j : Json) : JsValue :=
  match j with
  | JNull => VNull
  | JBool b => VBool b
  | JNumber t => VNumber t
  | JString s => VString s
  | JArray items => VArray (map of_json items)
  | JObject fields => VObject (map (fun kv => (fst kv, of_json (snd kv))) fields)
  end.

(** ** Strings *)

(** [String.prototype.endsWith]. *)
Definition endsWith (s suffix : string) : bool :=
  let n := String.length s in
  let m := String.length suffix in
  (m <=? n)%nat && String.eqb (substring (n - m) m s) suffix.

(** The class [\d] of a regular expression without the [u] flag. *)
Definition is_digit (c : ascii) : bool :=
  let n := nat_of_ascii c in (48 <=? n)%nat && (n <=? 57)%nat.

(** [/^\d{4}-\d{2}-\d{2}T/.test(value)]. *)
Definition iso_date_prefix (value : string) : bool :=
  match value with
  | String y1 (String y2 (String y3 (String y4 (String d1
      (String m1 (String m2 (String d2
        (String a1 (String a2 (String t _)))))))))) =>
      is_digit y1 && is_digit y2 && is_digit y3 && is_digit y4
      && Ascii.eqb d1 "-"
      && is_digit m1 && is_digit m2
      && Ascii.eqb d2 "-"
      && is_digit a1 && is_digit a2
      && Ascii.eqb t "T"
  | _ => false
  end.

(** [String.prototype.replace(/\/$/, "")]: drop one trailing slash. *)
Fixpoint strip_trailing_slash (s : string) : string :=
  match s with
  | EmptyString => EmptyString
  | String c EmptyString => if Ascii.eqb c "/" then EmptyString else s
  | String c rest => String c (strip_trailing_slash rest)
  end.

(** The text of an integer in a template literal and under [String]:
    [Number::toString] prints a safe integer in full. *)
Definition Z_to_string (z : Z) : string := NilZero.string_of_int (Z.to_int z).

(** ** Own properties *)

Section Properties.
Context {V : Type}.

(** Own property lookup. *)
Fixpoint lookup (key : string) (fields : list (string * V)) : option V :=
  match fields with
  | [] => None
  | (k, v) :: rest => if String.eqb k key then Some v else lookup key rest
  end.

Definition has_own (key : string) (fields : list (string * V)) : bool :=
  match lookup key fields with Some _ => true | None => false end.

(** The write of an own data property: overwrite it in place, or add
    it after the existing ones. *)
Fixpoint set_property (fields : list (string * V)) (key : string) (v : V)
  : list (string * V) :=
  match fields with
  | [] => [(key, v)]
  | (k, old) :: rest =>
      if String.eqb k key then (k, v) :: rest
      else (k, old) :: set_property rest key v
  end.

Definition keys (fields : list (string * V)) : list string := map fst fields.
End Properties.

(** [obj.key] on a decoded document that is not [null]: an own property
    of a record, [undefined] ([None]) otherwise.  None of the names the
    client reads ([message], [code], [data]) is defined by a built-in
    prototype. *)
Definition json_get (j : Json) (key : string) : option Json :=
  match j with
  | JObject fields => lookup key fields
  | _ => None
  end.

(** [obj.key] on a value that is neither [null] nor [undefined], for the
    names the client reads ([job], [state], [success], [user]): an own
    property, or else the property of the prototype.  No built-in
    prototype, array or date defines one of these names. *)
Fixpoint js_get (v : JsValue) (key : string) : JsValue :=
  match v with
  | VObject fields =>
      match lookup key fields with Some x => x | None => VUndefined end
  | VObjectWith prototype fields =>
      match lookup key fields with Some x => x | None => js_get prototype key end
  | _ => VUndefined
  end.

(** ** Property writes

    [result[key] = v] is the [[Set]] of an ordinary object (ECMA-262
    10.1.9): an own property is overwritten in place; otherwise the
    prototype chain decides.  An inherited data property is writable in
    every chain that occurs here, and the write adds an own property
    after the existing ones.  The one inherited accessor is
    [Object.prototype.__proto__] (ECMA-262 20.1.3.8, implemented by
    Node.js, Bun and the browsers): its setter adds no property, and
    replaces the prototype of the object when the value is an object or
    [null]. *)

(** What the setter of [__proto__] accepts as a prototype. *)
Definition is_object_or_null (v : JsValue) : bool :=
  match v with
  | VNull | VArray _ | VObject _ | VObjectWith _ _ | VDate _ => true
  | _ => false
  end.

(** Whether the lookup of [__proto__] that starts at the object [v]
    ends at the accessor of [Object.prototype]: no object on the way has
    an own property of that name, and the chain does not end in [null]
    before. *)
Fixpoint inherits_proto_accessor (v : JsValue) : bool :=
  match v with
  | VObject fields => negb (has_own "__proto__" fields)
  | VObjectWith prototype fields =>
      negb (has_own "__proto__" fields) && inherits_proto_accessor prototype
  | VArray _ | VDate _ => true
  | _ => false
  end.

(** [result[key] = v] on an object built by this client. *)
Definition assign (result : JsValue) (key : string) (v : JsValue) : JsValue :=
  match result with
  | VObject fields =>
      if String.eqb key "__proto__" && inherits_proto_accessor result
      then (if is_object_or_null v then VObjectWith v fields else result)
      else VObject (set_property fields key v)
  | VObjectWith prototype fields =>
      if String.eqb key "__proto__" && inherits_proto_accessor result
      then (if is_object_or_null v then VObjectWith v fields else result)
      else VObjectWith prototype (set_property fields key v)
  | _ => result
  end.

(** Truthiness of a value ([ToBoolean]); the text of a number is "0"
    for both zeros and "NaN" for NaN. *)
Definition truthy (v : JsValue) : bool :=
  match v with
  | VUndefined | VNull => false
  | VBool b => b
  | VNumber t => negb (String.eqb t "0" || String.eqb t "NaN")
  | VString s => negb (String.eqb s "")
  | VArray _ | VObject _ | VObjectWith _ _ | VDate _ => true
  end.

(** [v === "text"]. *)
Definition strict_eq_string (v : JsValue) (text : string) : bool :=
  match v with
  | VString s => String.eqb s text
  | _ => false
  end.

(** ** ToString of a decoded document (ECMA-262 7.1.17)

    - a primitive has a text;
    - an array is joined with commas, [null] elements giving the empty
      text (Array.prototype.join), each other element converted in turn;
    - a record goes through OrdinaryToPrimitive: with no own [toString]
      entry the inherited method answers "[object Object]"; an own
      [toString] entry is data, hence not callable, [valueOf] (own, or
      the inherited one, which returns the record itself) yields no
      primitive either, and the conversion throws a TypeError: [None]. *)
Fixpoint ToString (j : Json) : option string :=
  match j with
  | JNull => Some "null"
  | JBool b => Some (if b then "true" else "false")
  | JNumber t => Some t
  | JString s => Some s
  | JArray items =>
      let element (x : Json) : option string :=
        match x with JNull => Some "" | _ => ToString x end in
      (fix join (xs : list Json) : option string :=
         match xs with
         | [] => Some ""
         | [x] => element x
         | x :: rest =>
             match element x, join rest with
             | Some a, Some b => Some (a ++ "," ++ b)
             | _, _ => None
             end
         end) items
  | JObject fields =>
      if has_own "toString" fields then None else Some "[object Object]"
  end.

End JS.

(* ================================================================== *)
(** * errors.ts *)
(* ================================================================== *)

Module Errors.
Import JS.

(** The five classes of the taxonomy; every one extends the first. *)
Inductive ErrorClass : Type :=
| Generic
| Authentication
| NotFound
| RateLimit
| Validation.

(** An instance of [SubformerError] or of one of its subclasses. *)
Record Error : Type := mkError {
  class : ErrorClass;
  name : string;
  message : string;
  statusCode : option Z;
  code : option Json;
  data : option Json
}.

(** The [options] bag of the base constructor. *)
Record ErrorOptions : Type := mkErrorOptions {
  opt_statusCode : option Z;
  opt_code : option Json;
  opt_data : option Json
}.

(** [new SubformerError(message, options)].  An argument left out is
    [None]; [super(undefined)] leaves the message to [Error.prototype],
    where it is the empty text. *)
Definition SubformerError (message : option string)
    (options : option ErrorOptions) : Error :=
  {| class := Generic;
     name := "SubformerError";
     message := match message with Some m => m | None => "" end;
     statusCode := match options with Some o => opt_statusCode o | None => None end;
     code := match options with Some o => opt_code o | None => None end;
     data := match options with Some o => opt_data o | None => None end |}.

(** The body of a subclass constructor after [super(...)]:
    [this.name = ...], on an instance of that subclass. *)
Definition subclass (c : ErrorClass) (class_name : string) (base : Error) : Error :=
  {| class := c;
     name := class_name;
     message := message base;
     statusCode := statusCode base;
     code := code base;
     data := data base |}.

(** A default parameter value applies when the argument is [undefined]. *)
Definition default_parameter (dflt : string) (arg : option string) : string :=
  match arg with Some m => m | None => dflt end.

Definition AuthenticationError (message : option string) : Error :=
  let message := default_parameter "Invalid or missing API key" message in
  subclass Authentication "AuthenticationError"
    (SubformerError (Some message)
       (Some (mkErrorOptions (Some 401%Z) (Some (JString "UNAUTHORIZED")) None))).

Definition NotFoundError (message : option string) : Error :=
  let message := default_parameter "Resource not found" message in
  subclass NotFound "NotFoundError"
    (SubformerError (Some message)
       (Some (mkErrorOptions (Some 404%Z) (Some (JString "NOT_FOUND")) None))).

Definition RateLimitError (message : option string) : Error :=
  let message := default_parameter "Rate limit exceeded" message in
  subclass RateLimit "RateLimitError"
    (SubformerError (Some message)
       (Some (mkErrorOptions (Some 429%Z) (Some (JString "RATE_LIMIT_EXCEEDED")) None))).

Definition ValidationError (message : option string) (data : option Json) : Error :=
  subclass Validation "ValidationError"
    (SubformerError message
       (Some (mkErrorOptions (Some 400%Z) (Some (JString "BAD_REQUEST")) data))).

End Errors.

(* ================================================================== *)
(** * client.ts *)
(* ================================================================== *)

Module Client.
Import JS Errors.

(** ** Exceptions and completions *)

(** A thrown value: a member of the taxonomy, another [Error] (a
    TypeError, the AbortError of a cancelled fetch, a plain [Error]),
    or a value that is not an [Error] at all. *)
Inductive Thrown : Type :=
| ThrowSubformer (e : Error)
| ThrowNative (error_name error_message : string)
| ThrowOther.

Inductive Completion (A : Type) : Type :=
| Normal (a : A)
| Abrupt (t : Thrown).
Arguments Normal {A} a.
Arguments Abrupt {A} t.

(** Engine wording (V8) of the TypeErrors the client can provoke; no
    statement below depends on the wording. *)
Definition TypeError_to_primitive : Thrown :=
  ThrowNative "TypeError" "Cannot convert object to primitive value".

Definition TypeError_read (of_what key : string) : Thrown :=
  ThrowNative "TypeError"
    ("Cannot read properties of " ++ of_what ++ " (reading '" ++ key ++ "')").

(** [v.key] as an expression: a TypeError on [null] and [undefined]. *)
Definition get_property (v : JsValue) (key : string) : Completion JsValue :=
  match v with
  | VUndefined => Abrupt (TypeError_read "undefined" key)
  | VNull => Abrupt (TypeError_read "null" key)
  | _ => Normal (js_get v key)
  end.

(** ** The transport, the timers and the clock *)

(** [await response.json()]: a decoded document, or a rejection. *)
Inductive Body : Type :=
| Decoded (json : Json)
| Undecodable (error : Thrown).

Record Response : Type := mkResponse {
  status : Z;
  statusText : string;
  body : Body
}.

(** [response.ok]. *)
Definition ok (response : Response) : bool :=
  (200 <=? status response)%Z && (status response <=? 299)%Z.

(** How an [await fetch(...)] settles: a response arrives; or the timer
    of the call fires first, [controller.abort()] cancels the call and
    the promise rejects with an AbortError; or it rejects for another
    reason before the timer fires. *)
Inductive FetchOutcome : Type :=
| Responded (response : Response)
| TimerFired (abort_message : string)
| Rejected (error : Thrown).

(** The arguments of one [fetch] call; [fc_body] is the value given to
    [JSON.stringify], [fc_signal] the timer whose firing aborts the call. *)
Record FetchCall : Type := mkFetchCall {
  fc_url : string;
  fc_query : list (string * string);
  fc_method : string;
  fc_headers : list (string * string);
  fc_body : option JsValue;
  fc_signal : nat
}.

Inductive TimerStatus : Type := Pending | Fired | Cleared.

Record Timer : Type := mkTimer {
  delay : Z;
  timer_status : TimerStatus
}.

(** Everything a run has done so far: the calls issued, the timers
    created, the calls cancelled through their [AbortController] (by
    position in [fetches]), the number of bodies decoded, the number of
    clock readings, the pauses taken. *)
Record World : Type := mkWorld {
  fetches : list FetchCall;
  timers : list Timer;
  aborted : list nat;
  json_reads : nat;
  clock_reads : nat;
  sleeps : list Z
}.

Definition initial_world : World := mkWorld [] [] [] 0 0 [].

(** The environment: the outcome of the k-th fetch and the k-th reading
    of [Date.now()], in milliseconds. *)
Record Env : Type := mkEnv {
  fetch_outcome : nat -> FetchOutcome;
  now : nat -> Z
}.

(** ** A state and exception monad *)

Definition M (A : Type) : Type := World -> Completion A * World.

Definition ret {A} (a : A) : M A := fun w => (Normal a, w).

Definition throw {A} (t : Thrown) : M A := fun w => (Abrupt t, w).

Definition bind {A B} (m : M A) (k : A -> M B) : M B :=
  fun w =>
    match m w with
    | (Normal a, w') => k a w'
    | (Abrupt t, w') => (Abrupt t, w')
    end.

(** [try { m } catch (error) { handler }]. *)
Definition try_catch {A} (m : M A) (handler : Thrown -> M A) : M A :=
  fun w =>
    match m w with
    | (Normal a, w') => (Normal a, w')
    | (Abrupt t, w') => handler t w'
    end.

Definition lift {A} (c : Completion A) : M A := fun w => (c, w).

Declare Scope client_scope.
Delimit Scope client_scope with client.
Notation "x <- m ;; k" := (bind m (fun x => k))
  (at level 100, m at next level, right associativity) : client_scope.
Notation "m ;;; k" := (bind m (fun _ => k))
  (at level 100, right associativity) : client_scope.
Open Scope client_scope.

(** ** Timers *)

Fixpoint update_timer (id : nat) (f : Timer -> Timer) (ts : list Timer)
  : list Timer :=
  match ts, id with
  | [], _ => []
  | t :: rest, O => f t :: rest
  | t :: rest, S id' => t :: update_timer id' f rest
  end.

Definition with_timers (f : list Timer -> list Timer) (w : World) : World :=
  mkWorld (fetches w) (f (timers w)) (aborted w) (json_reads w)
          (clock_reads w) (sleeps w).

(** [setTimeout(callback, ms)]: a new pending timer; its id. *)
Definition setTimeout (ms : Z) : M nat :=
  fun w => (Normal (length (timers w)),
            with_timers (fun ts => (ts ++ [mkTimer ms Pending])%list) w).

(** [clearTimeout(id)]: cancels a pending timer, nothing otherwise. *)
Definition clear (t : Timer) : Timer :=
  match timer_status t with
  | Pending => mkTimer (delay t) Cleared
  | _ => t
  end.

Definition clearTimeout (id : nat) : M unit :=
  fun w => (Normal tt, with_timers (update_timer id clear) w).

Definition fire (t : Timer) : Timer := mkTimer (delay t) Fired.

(** [await new Promise((resolve) => setTimeout(resolve, ms))]. *)
Definition sleep (ms : Z) (w : World) : World :=
  mkWorld (fetches w) (timers w) (aborted w) (json_reads w) (clock_reads w)
          (sleeps w ++ [ms])%list.

Section WithEnvironment.
Variable env : Env.

(** [Date.now()]. *)
Definition Date_now (w : World) : Z * World :=
  (now env (clock_reads w),
   mkWorld (fetches w) (timers w) (aborted w) (json_reads w)
           (S (clock_reads w)) (sleeps w)).

(** The callback of the timer, [() => controller.abort()], when the
    timer fires during the call at position [k]. *)
Definition timer_fires (id k : nat) (w : World) : World :=
  mkWorld (fetches w) (update_timer id fire (timers w))
          (aborted w ++ [k])%list (json_reads w) (clock_reads w) (sleeps w).

(** [await fetch(url, init)]. *)
Definition fetch (call : FetchCall) : M Response :=
  fun w =>
    let w' := mkWorld (fetches w ++ [call])%list (timers w) (aborted w)
                      (json_reads w) (clock_reads w) (sleeps w) in
    match fetch_outcome env (length (fetches w)) with
    | Responded response => (Normal response, w')
    | TimerFired abort_message =>
        (Abrupt (ThrowNative "AbortError" abort_message),
         timer_fires (fc_signal call) (length (fetches w)) w')
    | Rejected error => (Abrupt error, w')
    end.
End WithEnvironment.

(** [await response.json()]. *)
Definition response_json (response : Response) : M Json :=
  fun w =>
    let w' := mkWorld (fetches w) (timers w) (aborted w) (S (json_reads w))
                      (clock_reads w) (sleeps w) in
    match body response with
    | Decoded json => (Normal json, w')
    | Undecodable error => (Abrupt error, w')
    end.

(** ** The client *)

Definition DEFAULT_BASE_URL : string := "https://api.subformer.com/v1".
Definition DEFAULT_TIMEOUT : Z := 30000.

Record SubformerOptions : Type := mkSubformerOptions {
  options_apiKey : string;
  options_baseUrl : option string;
  options_timeout : option Z
}.

Record Subformer : Type := mkSubformer {
  apiKey : string;
  baseUrl : string;
  timeout : Z
}.

(** [new Subformer(options)]. *)
Definition constructor (options : SubformerOptions) : Subformer :=
  {| apiKey := options_apiKey options;
     baseUrl := strip_trailing_slash
                  (match options_baseUrl options with
                   | Some url => url
                   | None => DEFAULT_BASE_URL
                   end);
     timeout := match options_timeout options with
                | Some ms => ms
                | None => DEFAULT_TIMEOUT
                end |}.

(** A query parameter value and [String(value)]. *)
Inductive ParamValue : Type :=
| PString (s : string)
| PNumber (text : string)
| PBoolean (b : bool).

Definition String_of (value : ParamValue) : string :=
  match value with
  | PString s => s
  | PNumber text => text
  | PBoolean b => if b then "true" else "false"
  end.

(** The [options] argument of [request]. *)
Record RequestOptions : Type := mkRequestOptions {
  request_body : option JsValue;
  request_params : option (list (string * option ParamValue))
}.

(** [transformDates(obj)] on a decoded document. *)
Fixpoint transformDates (obj : Json) : JsValue :=
  match obj with
  | JNull => VNull
  | JArray items => VArray (map transformDates items)
  | JObject fields =>
      fold_left
        (fun result entry =>
           let key := fst entry in
           let value := snd entry in
           assign result key
             (match value with
              | JString text =>
                  if (endsWith key "At" || endsWith key "On")
                     && iso_date_prefix text
                  then VDate text
                  else transformDates value
              | _ => transformDates value
              end))
        fields (VObject [])
  | JBool b => VBool b
  | JNumber text => VNumber text
  | JString s => VString s
  end.

(** What [throw new C(message)] throws when [message] is whatever the
    body held: the [Error] constructor converts its argument with
    ToString (ECMA-262 20.5.1.1), and that conversion may itself throw. *)
Definition new_error (C : option string -> Error) (message : Json) : Thrown :=
  match ToString message with
  | Some text => ThrowSubformer (C (Some text))
  | None => TypeError_to_primitive
  end.

Definition throw_new {A} (C : option string -> Error) (message : Json) : M A :=
  throw (new_error C message).

(** The [try]/[catch] at the head of [handleError]: the message, code
    and data read from the body.  [json.message] on [null] throws inside
    the [try], like a failed decode, before anything is assigned. *)
Definition error_fields (response : Response) (parsed : Completion Json)
  : Json * option Json * option Json :=
  match parsed with
  | Normal JNull | Abrupt _ => (JString (statusText response), None, None)
  | Normal json =>
      (match json_get json "message" with
       | None | Some JNull => JString (statusText response)
       | Some m => m
       end,
       json_get json "code",
       json_get json "data")
  end.

Definition handleError (response : Response) : M Empty_set :=
  fun w =>
    let '(parsed, w') := response_json response w in
    let '(message, code, data) := error_fields response parsed in
    (if status response =? 401 then throw_new AuthenticationError message
     else if status response =? 404 then throw_new NotFoundError message
     else if status response =? 429 then throw_new RateLimitError message
     else if status response =? 400
       then throw_new (fun m => ValidationError m data) message
     else throw_new
            (fun m => SubformerError m
               (Some (mkErrorOptions (Some (status response)) code data)))
            message)%Z w'.

Section WithClient.
Variable self : Subformer.
Variable env : Env.

(** The [catch] clause of [request]. *)
Definition request_catch {A} (timeoutId : nat) (error : Thrown) : M A :=
  clearTimeout timeoutId ;;;
  match error with
  | ThrowSubformer _ => throw error
  | ThrowNative error_name error_message =>
      if String.eqb error_name "AbortError"
      then throw (ThrowSubformer (SubformerError (Some "Request timeout") None))
      else throw (ThrowSubformer (SubformerError (Some error_message) None))
  | ThrowOther =>
      throw (ThrowSubformer (SubformerError (Some "Unknown error") None))
  end.

(** The query string: [url.searchParams.set(key, String(value))] for
    every entry that is not [undefined]. *)
Definition search_params (params : option (list (string * option ParamValue)))
  : list (string * string) :=
  match params with
  | None => []
  | Some entries =>
      fold_left
        (fun query entry =>
           match snd entry with
           | Some value => set_property query (fst entry) (String_of value)
           | None => query
           end)
        entries []
  end.

(** The arguments [request] gives to [fetch]. *)
Definition fetch_arguments (method path : string)
    (options : option RequestOptions) (timeoutId : nat) : FetchCall :=
  {| fc_url := baseUrl self ++ path;
     fc_query := search_params (match options with
                                | Some o => request_params o
                                | None => None
                                end);
     fc_method := method;
     fc_headers := [("x-api-key", apiKey self);
                    ("Content-Type", "application/json")];
     fc_body := match options with
                | Some o =>
                    match request_body o with
                    | Some b => if truthy b then Some b else None
                    | None => None
                    end
                | None => None
                end;
     fc_signal := timeoutId |}.

(** Lines 95 to 132 of [request]: the timer, the call and what follows
    it; [call] gives the arguments of [fetch] for the timer of the
    call. *)
Definition request_call (call : nat -> FetchCall) : M JsValue :=
  timeoutId <- setTimeout (timeout self) ;;
  try_catch
    (response <- fetch env (call timeoutId) ;;
     clearTimeout timeoutId ;;;
     (if negb (ok response)
      then (never <- handleError response ;;
            match never : Empty_set with end)
      else ret tt) ;;;
     if (status response =? 204)%Z
     then ret VUndefined
     else (data <- response_json response ;;
           ret (transformDates data)))
    (request_catch timeoutId).

(** [request] for a base URL and a path that make a URL in its normal
    form: [new URL(baseUrl + path)] succeeds and [url.toString()] gives
    the text back.  [Complete.request] below is [request] for every
    base URL. *)
Definition request (method path : string) (options : option RequestOptions)
  : M JsValue :=
  request_call (fetch_arguments method path options).
End WithClient.

(** ** Dubbing and jobs *)

Inductive DubSource : Type :=
| Youtube | Tiktok | Instagram | Facebook | X | Url.

Definition DubSource_text (source : DubSource) : string :=
  match source with
  | Youtube => "youtube"
  | Tiktok => "tiktok"
  | Instagram => "instagram"
  | Facebook => "facebook"
  | X => "x"
  | Url => "url"
  end.

Record DubOptions : Type := mkDubOptions {
  dub_source : DubSource;
  dub_url : string;
  dub_language : string;
  dub_disableWatermark : option bool
}.

Record WaitForJobOptions : Type := mkWaitForJobOptions {
  wait_pollInterval : option Z;
  wait_timeout : option Z
}.

(** An optional field as a value. *)
Definition optional_boolean (b : option bool) : JsValue :=
  match b with Some v => VBool v | None => VUndefined end.

(** Truthiness of an optional number. *)
Definition truthy_number (n : option Z) : bool :=
  match n with Some v => negb (v =? 0)%Z | None => false end.

(** The job states that end the polling. *)
Definition terminal (state : JsValue) : bool :=
  strict_eq_string state "completed"
  || strict_eq_string state "failed"
  || strict_eq_string state "cancelled".

Section WithClientOperations.
Variable self : Subformer.
Variable env : Env.

Definition dub_body (options : DubOptions) : JsValue :=
  VObject [("type", VString (DubSource_text (dub_source options)));
           ("url", VString (dub_url options));
           ("toLanguage", VString (dub_language options));
           ("disableWatermark", optional_boolean (dub_disableWatermark options))].

Definition dub (options : DubOptions) : M JsValue :=
  response <- request self env "POST" "/dub"
                (Some (mkRequestOptions (Some (dub_body options)) None)) ;;
  lift (get_property response "job").

Definition getJob (jobId : string) : M JsValue :=
  request self env "GET" ("/jobs/" ++ jobId) None.

(** The failure of [waitForJob] when its budget is spent. *)
Definition wait_timeout_error (jobId : string) (options : WaitForJobOptions)
  : Thrown :=
  ThrowNative "Error"
    ("Job " ++ jobId ++ " did not complete within "
     ++ match wait_timeout options with
        | Some seconds => Z_to_string seconds
        | None => "undefined"
        end
     ++ " seconds").

(** The [while (true)] loop of [waitForJob], at most [fuel] polls:
    [None] when the polls are used up with the loop still running. *)
Fixpoint poll (fuel : nat) (jobId : string) (options : WaitForJobOptions)
    (pollInterval : Z) (timeout : option Z) (startTime : Z) (w : World)
  : option (Completion JsValue * World) :=
  match fuel with
  | O => None
  | S fuel' =>
      match getJob jobId w with
      | (Abrupt t, w1) => Some (Abrupt t, w1)
      | (Normal job, w1) =>
          match get_property job "state" with
          | Abrupt t => Some (Abrupt t, w1)
          | Normal state =>
              if terminal state then Some (Normal job, w1)
              else
                match timeout with
                | Some budget =>
                    if truthy_number timeout then
                      let '(t_now, w2) := Date_now env w1 in
                      if (t_now - startTime >? budget)%Z
                      then Some (Abrupt (wait_timeout_error jobId options), w2)
                      else poll fuel' jobId options pollInterval timeout
                             startTime (sleep pollInterval w2)
                    else poll fuel' jobId options pollInterval timeout
                           startTime (sleep pollInterval w1)
                | None =>
                    poll fuel' jobId options pollInterval timeout startTime
                      (sleep pollInterval w1)
                end
          end
      end
  end.

Definition default_WaitForJobOptions : WaitForJobOptions :=
  mkWaitForJobOptions None None.

Definition waitForJob (fuel : nat) (jobId : string)
    (options : option WaitForJobOptions) (w : World)
  : option (Completion JsValue * World) :=
  let options := match options with
                 | Some o => o
                 | None => default_WaitForJobOptions
                 end in
  let pollInterval :=
    ((match wait_pollInterval options with Some s => s | None => 2 end)
     * 1000)%Z in
  let timeout :=
    if truthy_number (wait_timeout options)
    then match wait_timeout options with
         | Some s => Some (s * 1000)%Z
         | None => None
         end
    else None in
  let '(startTime, w0) := Date_now env w in
  poll fuel jobId options pollInterval timeout startTime w0.
End WithClientOperations.

End Client.

(* ================================================================== *)
(** * The vocabulary of the specification *)
(* ================================================================== *)

Module Spec.
Import JS Errors Client.

(** ** Well-formed documents *)

(** No text occurs twice. *)
Fixpoint distinct (names : list string) : bool :=
  match names with
  | [] => true
  | n :: rest => negb (existsb (String.eqb n) rest) && distinct rest
  end.

(** Every record of the document has pairwise distinct property names,
    as every object has. *)
Fixpoint unique_keys (j : Json) : bool :=
  match j with
  | JArray items => forallb unique_keys items
  | JObject fields =>
      distinct (keys fields)
      && forallb (fun entry => unique_keys (snd entry)) fields
  | _ => true
  end.

(** No record of the document has a field named [__proto__]. *)
Fixpoint no_proto_key (j : Json) : bool :=
  match j with
  | JArray items => forallb no_proto_key items
  | JObject fields =>
      negb (has_own "__proto__" fields)
      && forallb (fun entry => no_proto_key (snd entry)) fields
  | _ => true
  end.

(** ** Section 4.1: the taxonomy table *)

(** The kind and the fixed code of a classified status. *)
Definition taxonomy_row (status : Z) : option (ErrorClass * string) :=
  if (status =? 401)%Z then Some (Authentication, "UNAUTHORIZED")
  else if (status =? 404)%Z then Some (NotFound, "NOT_FOUND")
  else if (status =? 429)%Z then Some (RateLimit, "RATE_LIMIT_EXCEEDED")
  else if (status =? 400)%Z then Some (Validation, "BAD_REQUEST")
  else None.

(** The error body convention [{ message?, code?, data? }]: a field of
    the decoded body, nothing when the body does not decode. *)
Definition body_field (response : Response) (key : string) : option Json :=
  match body response with
  | Decoded json => json_get json key
  | Undecodable _ => None
  end.

(** The message of the failure: the body's, or the reason phrase when
    the body has none. *)
Definition failure_message (response : Response) : Json :=
  match body_field response "message" with
  | None | Some JNull => JString (statusText response)
  | Some m => m
  end.

(** ** Section 4.2, step 6: the date walk, in the words of the
    specification *)

(** A field whose name ends in "At" or "On" and whose value is a text
    with an ISO-8601 date-time prefix. *)
Definition date_field (key : string) (value : Json) : option string :=
  match value with
  | JString text =>
      if (endsWith key "At" || endsWith key "On") && iso_date_prefix text
      then Some text
      else None
  | _ => None
  end.

(** Convert the date fields, recurse into records and sequences, leave
    every other value as it is. *)
Fixpoint spec_date_walk (j : Json) : JsValue :=
  match j with
  | JObject fields =>
      VObject
        (map (fun entry =>
                (fst entry,
                 match date_field (fst entry) (snd entry) with
                 | Some text => VDate text
                 | None => spec_date_walk (snd entry)
                 end))
             fields)
  | JArray items => VArray (map spec_date_walk items)
  | _ => of_json j
  end.

(** ** The result of the walk for a record *)

(** The value the walk gives to a field. *)
Definition converted (key : string) (value : Json) : JsValue :=
  match date_field key value with
  | Some text => VDate text
  | None => transformDates value
  end.

(** The fields of a record that become own properties of the result:
    all but a field named [__proto__]. *)
Definition copied_fields {V} (fields : list (string * V)) : list (string * V) :=
  filter (fun entry => negb (String.eqb (fst entry) "__proto__")) fields.

(** The prototype a field named [__proto__] gives to the result, when
    its value is a record, an array or [null]. *)
Definition installed_prototype (fields : list (string * Json)) : option JsValue :=
  match lookup "__proto__" fields with
  | Some value =>
      if is_object_or_null (transformDates value)
      then Some (transformDates value)
      else None
  | None => None
  end.

(** An object by its prototype, if that was replaced, and its own
    properties. *)
Definition object_with (prototype : option JsValue)
    (fields : list (string * JsValue)) : JsValue :=
  match prototype with
  | Some p => VObjectWith p fields
  | None => VObject fields
  end.

(** A value that is an object other than an array or a date. *)
Definition is_record (v : JsValue) : bool :=
  match v with
  | VObject _ | VObjectWith _ _ => true
  | _ => false
  end.

(** ** Polling *)

(** The job a successful fetch-job call returns at the k-th fetch. *)
Definition fetched_job (env : Env) (k : nat) : option JsValue :=
  match fetch_outcome env k with
  | Responded response =>
      if ok response && negb (status response =? 204)%Z
      then match body response with
           | Decoded json => Some (transformDates json)
           | Undecodable _ => None
           end
      else None
  | _ => None
  end.

(** The state of a fetched job. *)
Definition job_state (job : JsValue) : option JsValue :=
  match get_property job "state" with
  | Normal state => Some state
  | Abrupt _ => None
  end.

(** The k-th fetch returns a job that is still queued or active. *)
Definition still_running (env : Env) (k : nat) : Prop :=
  exists job state,
    fetched_job env k = Some job
    /\ job_state job = Some state
    /\ terminal state = false.

(** The k-th fetch returns [job], in a terminal state. *)
Definition finished_with (env : Env) (k : nat) (job : JsValue) : Prop :=
  exists state,
    fetched_job env k = Some job
    /\ job_state job = Some state
    /\ terminal state = true.

(** The budget of [waitForJob] in milliseconds, when one is in force. *)
Definition budget (options : WaitForJobOptions) : option Z :=
  match wait_timeout options with
  | Some seconds => if (seconds =? 0)%Z then None else Some (seconds * 1000)%Z
  | None => None
  end.

(** ** The outcome of a call *)

(** Section 4.2, step 4: the failure a non-success response is turned
    into, by numeric status. *)
Definition classified (response : Response) : Thrown :=
  let message := failure_message response in
  let data := body_field response "data" in
  match taxonomy_row (status response) with
  | Some (Authentication, _) => new_error AuthenticationError message
  | Some (NotFound, _) => new_error NotFoundError message
  | Some (RateLimit, _) => new_error RateLimitError message
  | Some (_, _) => new_error (fun m => ValidationError m data) message
  | None =>
      new_error
        (fun m => SubformerError m
           (Some (mkErrorOptions (Some (status response))
                    (body_field response "code") data)))
        message
  end.

(** Section 4.2, step 7: a member of the taxonomy passes, anything else
    is wrapped as a Generic error. *)
Definition normalized (error : Thrown) : Thrown :=
  match error with
  | ThrowSubformer e => ThrowSubformer e
  | ThrowNative error_name error_message =>
      ThrowSubformer
        (SubformerError
           (Some (if String.eqb error_name "AbortError"
                  then "Request timeout" else error_message))
           None)
  | ThrowOther => ThrowSubformer (SubformerError (Some "Unknown error") None)
  end.

(** The world after one call of [request]: one more fetch, the timer of
    the call settled, the call cancelled if its timer fired, [decodes]
    more bodies decoded. *)
Definition after_request (self : Subformer) (w : World) (call : FetchCall)
    (timer : TimerStatus) (decodes : nat) : World :=
  mkWorld (fetches w ++ [call])%list
          (timers w ++ [mkTimer (timeout self) timer])%list
          (match timer with
           | Fired => aborted w ++ [length (fetches w)]
           | _ => aborted w
           end)%list
          (decodes + json_reads w)
          (clock_reads w)
          (sleeps w).

(** ** Section 4.1: default messages *)

(** A constructor called without a message yields a message that is
    not empty. *)
Definition has_default_message (construct : option string -> Error) : Prop :=
  message (construct None) <> "".

(** The world after one successful fetch-job call. *)
Definition polled (self : Subformer) (jobId : string) (w : World) : World :=
  after_request self w
    (fetch_arguments self "GET" ("/jobs/" ++ jobId) None (length (timers w)))
    Cleared 1.

(** A fetch-job call: GET [/jobs/{id}]. *)
Definition is_getJob (self : Subformer) (jobId : string) (call : FetchCall)
  : Prop :=
  fc_method call = "GET" /\ fc_url call = baseUrl self ++ "/jobs/" ++ jobId.

(** Between [w] and [w'] exactly [n] calls were made, every one of them
    a fetch-job call. *)
Definition fetch_job_calls (self : Subformer) (jobId : string)
    (w w' : World) (n : nat) : Prop :=
  exists calls,
    fetches w' = (fetches w ++ calls)%list
    /\ length calls = n
    /\ Forall (is_getJob self jobId) calls.

(** ** Timers *)

Definition is_pending (t : Timer) : bool :=
  match timer_status t with Pending => true | _ => false end.

Definition pending_timers (w : World) : list Timer := filter is_pending (timers w).

(** ** Texts *)

Definition includes (text part : string) : Prop :=
  exists before after, text = before ++ part ++ after.

End Spec.

(* ================================================================== *)
(** * Scenarios *)
(* ================================================================== *)

Module Scenario.
Import JS Errors Client Spec.

(** A client with the default base URL and timeout. *)
Definition client : Subformer :=
  constructor (mkSubformerOptions "sk_subformer_test" None None).

(** A transport that gives the same answer to every call; the clock
    stands still. *)
Definition always (outcome : FetchOutcome) : Env :=
  mkEnv (fun _ => outcome) (fun _ => 0%Z).

(** A record whose [message] is a record with an own [toString] entry:
    [{"message": {"toString": null}}]. *)
Definition unconvertible_body : Body :=
  Decoded (JObject [("message", JObject [("toString", JNull)])]).

(** [{"message": "url is required", "data": {"field": "url"}}]. *)
Definition validation_body : Body :=
  Decoded (JObject [("message", JString "url is required");
                    ("data", JObject [("field", JString "url")])]).

(** A job response with dates and a nested record. *)
Definition job_document : Json :=
  JObject [("id", JString "j1");
           ("state", JString "completed");
           ("createdAt", JString "2024-05-01T10:00:00.000Z");
           ("finishedOn", JString "2024-05-01T10:03:20.000Z");
           ("startedAt", JString "yesterday");
           ("title", JString "2024-05-01T10:00:00.000Z");
           ("progress", JNumber "100");
           ("metadata", JNull);
           ("steps", JArray [JObject [("processedOn",
                                       JString "2024-05-01T10:01:00.000Z")]])].

(** [{"job": ...}], the envelope of a job-creating endpoint. *)
Definition job_envelope : Json := JObject [("job", job_document)].

(** A job with a field named [__proto__] that holds a text:
    [{"id": "j1", "__proto__": "x", "state": "queued"}]. *)
Definition proto_text_document : Json :=
  JObject [("id", JString "j1");
           ("__proto__", JString "x");
           ("state", JString "queued")].

(** A job without a state, with a field named [__proto__] that holds a
    record: [{"id": "j1", "__proto__": {"state": "completed"}}]. *)
Definition proto_record_document : Json :=
  JObject [("id", JString "j1");
           ("__proto__", JObject [("state", JString "completed")])].

(** A job in a given state. *)
Definition job_in (state : string) : Json :=
  JObject [("id", JString "j1"); ("state", JString state)].

(** A clock that advances by two seconds from one reading to the next. *)
Definition ticking (outcomes : nat -> FetchOutcome) : Env :=
  mkEnv outcomes (fun k => (Z.of_nat k * 2000)%Z).

(** A job seen queued, then active, then completed. *)
Definition transitions : Env :=
  ticking (fun k =>
             Responded
               (mkResponse 200 "OK"
                  (Decoded (job_in match k with
                                   | 0 => "queued"
                                   | 1 => "active"
                                   | _ => "completed"
                                   end)))).

(** A job that stays queued. *)
Definition never_finishes : Env :=
  ticking (fun _ => Responded (mkResponse 200 "OK" (Decoded (job_in "queued")))).

(** [{"message": "upstream failed", "code": "UPSTREAM"}]. *)
Definition upstream_body : Body :=
  Decoded (JObject [("message", JString "upstream failed");
                    ("code", JString "UPSTREAM")]).

End Scenario.

(* ================================================================== *)
(** * client.ts: the other operations *)
(* ================================================================== *)

Module Operations.
Import JS Errors Client.

Inductive JobType : Type :=
| VideoDubbing | VoiceCloning | VoiceSynthesis | DubStudioRenderVideo.

Definition JobType_text (type : JobType) : string :=
  match type with
  | VideoDubbing => "video-dubbing"
  | VoiceCloning => "voice-cloning"
  | VoiceSynthesis => "voice-synthesis"
  | DubStudioRenderVideo => "dub-studio-render-video"
  end.

Record ListJobsOptions : Type := mkListJobsOptions {
  list_offset : option Z;
  list_limit : option Z;
  list_type : option JobType
}.

(** [PresetVoice | UploadedVoice], told apart by [mode]. *)
Inductive TargetVoice : Type :=
| PresetVoice (presetVoiceId : string)
| UploadedVoice (targetAudioUrl : string).

Inductive Gender : Type := Male | Female.

Definition Gender_text (gender : Gender) : string :=
  match gender with Male => "male" | Female => "female" end.

Record CloneVoiceOptions : Type := mkCloneVoiceOptions {
  clone_sourceAudioUrl : string;
  clone_targetVoice : TargetVoice
}.

Record SynthesizeVoiceOptions : Type := mkSynthesizeVoiceOptions {
  synthesize_text : string;
  synthesize_targetVoice : TargetVoice
}.

Record CreateVoiceOptions : Type := mkCreateVoiceOptions {
  create_name : string;
  create_audioUrl : string;
  create_gender : Gender;
  create_duration : Z
}.

Record UpdateVoiceOptions : Type := mkUpdateVoiceOptions {
  update_voiceId : string;
  update_name : option string;
  update_gender : option Gender
}.

Record GenerateVoiceUploadUrlOptions : Type := mkGenerateVoiceUploadUrlOptions {
  upload_fileName : string;
  upload_contentType : string
}.

Record UpdateUserOptions : Type := mkUpdateUserOptions {
  user_name : string;
  user_email : string
}.

(** An optional text as a value. *)
Definition optional_string (s : option string) : JsValue :=
  match s with Some v => VString v | None => VUndefined end.

(** The conditional that rebuilds the target voice from its [mode]. *)
Definition targetVoice_body (targetVoice : TargetVoice) : JsValue :=
  match targetVoice with
  | PresetVoice presetVoiceId =>
      VObject [("mode", VString "preset");
               ("presetVoiceId", VString presetVoiceId)]
  | UploadedVoice targetAudioUrl =>
      VObject [("mode", VString "upload");
               ("targetAudioUrl", VString targetAudioUrl)]
  end.

(** [request(method, path, { body })]. *)
Definition with_body (body : JsValue) : option RequestOptions :=
  Some (mkRequestOptions (Some body) None).

Definition listJobs_params (options : ListJobsOptions)
  : list (string * option ParamValue) :=
  [("offset", option_map (fun n => PNumber (Z_to_string n)) (list_offset options));
   ("limit", option_map (fun n => PNumber (Z_to_string n)) (list_limit options));
   ("type", option_map (fun t => PString (JobType_text t)) (list_type options))].

Definition default_ListJobsOptions : ListJobsOptions :=
  mkListJobsOptions None None None.

(** The public methods, over [this.request]. *)
Module Methods.
Section OverRequest.
Variable request : string -> string -> option RequestOptions -> M JsValue.

Definition dub (options : DubOptions) : M JsValue :=
  response <- request "POST" "/dub"
                (Some (mkRequestOptions (Some (dub_body options)) None)) ;;
  lift (get_property response "job").

Definition getLanguages : M JsValue :=
  request "GET" "/metadata/dub/languages" None.

Definition getJob (jobId : string) : M JsValue :=
  request "GET" ("/jobs/" ++ jobId) None.

Definition listJobs (options : option ListJobsOptions) : M JsValue :=
  let options := match options with
                 | Some o => o
                 | None => default_ListJobsOptions
                 end in
  request "GET" "/jobs"
    (Some (mkRequestOptions None (Some (listJobs_params options)))).

Definition deleteJobs (jobIds : list string) : M JsValue :=
  response <- request "DELETE" "/jobs"
                (with_body (VObject [("jobIds", VArray (map VString jobIds))])) ;;
  lift (get_property response "success").

Definition cloneVoice (options : CloneVoiceOptions) : M JsValue :=
  response <- request "POST" "/voice/clone"
                (with_body
                   (VObject
                      [("sourceAudioUrl", VString (clone_sourceAudioUrl options));
                       ("targetVoice",
                        targetVoice_body (clone_targetVoice options))])) ;;
  lift (get_property response "job").

Definition synthesizeVoice (options : SynthesizeVoiceOptions) : M JsValue :=
  response <- request "POST" "/voice/synthesize"
                (with_body
                   (VObject
                      [("text", VString (synthesize_text options));
                       ("targetVoice",
                        targetVoice_body (synthesize_targetVoice options))])) ;;
  lift (get_property response "job").

Definition listVoices : M JsValue :=
  request "GET" "/voices" None.

Definition getVoice (voiceId : string) : M JsValue :=
  request "GET" ("/voices/" ++ voiceId) None.

Definition createVoice (options : CreateVoiceOptions) : M JsValue :=
  request "POST" "/voices"
    (with_body
       (VObject [("name", VString (create_name options));
                 ("audioUrl", VString (create_audioUrl options));
                 ("gender", VString (Gender_text (create_gender options)));
                 ("duration", VNumber (Z_to_string (create_duration options)))])).

Definition updateVoice (options : UpdateVoiceOptions) : M JsValue :=
  request "PUT" ("/voices/" ++ update_voiceId options)
    (with_body
       (VObject [("voiceId", VString (update_voiceId options));
                 ("name", optional_string (update_name options));
                 ("gender",
                  optional_string (option_map Gender_text (update_gender options)))])).

Definition deleteVoice (voiceId : string) : M JsValue :=
  response <- request "DELETE" ("/voices/" ++ voiceId)
                (with_body (VObject [("voiceId", VString voiceId)])) ;;
  lift (get_property response "success").

Definition generateVoiceUploadUrl (options : GenerateVoiceUploadUrlOptions)
  : M JsValue :=
  request "POST" "/voices/upload-url"
    (with_body
       (VObject [("fileName", VString (upload_fileName options));
                 ("contentType", VString (upload_contentType options))])).

Definition getUsage : M JsValue :=
  request "GET" "/billing/usage" None.

Definition getUsageHistory : M JsValue :=
  request "GET" "/billing/usage-history" None.

Definition getMe : M JsValue :=
  request "GET" "/users/me" None.

Definition updateMe (options : UpdateUserOptions) : M JsValue :=
  response <- request "PUT" "/users/me"
                (with_body (VObject [("name", VString (user_name options));
                                     ("email", VString (user_email options))])) ;;
  lift (get_property response "user").

Definition getRateLimit : M JsValue :=
  request "GET" "/users/me/rate-limit" None.
End OverRequest.
End Methods.

(** The methods of a client whose URLs are in normal form. *)
Section WithClient.
Variable self : Subformer.
Variable env : Env.

Definition getLanguages : M JsValue :=
  Methods.getLanguages (request self env).

Definition listJobs (options : option ListJobsOptions) : M JsValue :=
  Methods.listJobs (request self env) options.

Definition deleteJobs (jobIds : list string) : M JsValue :=
  Methods.deleteJobs (request self env) jobIds.

Definition cloneVoice (options : CloneVoiceOptions) : M JsValue :=
  Methods.cloneVoice (request self env) options.

Definition synthesizeVoice (options : SynthesizeVoiceOptions) : M JsValue :=
  Methods.synthesizeVoice (request self env) options.

Definition listVoices : M JsValue :=
  Methods.listVoices (request self env).

Definition getVoice (voiceId : string) : M JsValue :=
  Methods.getVoice (request self env) voiceId.

Definition createVoice (options : CreateVoiceOptions) : M JsValue :=
  Methods.createVoice (request self env) options.

Definition updateVoice (options : UpdateVoiceOptions) : M JsValue :=
  Methods.updateVoice (request self env) options.

Definition deleteVoice (voiceId : string) : M JsValue :=
  Methods.deleteVoice (request self env) voiceId.

Definition generateVoiceUploadUrl (options : GenerateVoiceUploadUrlOptions)
  : M JsValue :=
  Methods.generateVoiceUploadUrl (request self env) options.

Definition getUsage : M JsValue :=
  Methods.getUsage (request self env).

Definition getUsageHistory : M JsValue :=
  Methods.getUsageHistory (request self env).

Definition getMe : M JsValue :=
  Methods.getMe (request self env).

Definition updateMe (options : UpdateUserOptions) : M JsValue :=
  Methods.updateMe (request self env) options.

Definition getRateLimit : M JsValue :=
  Methods.getRateLimit (request self env).
End WithClient.

End Operations.

(* ================================================================== *)
(** * client.ts: [request] from its first line *)
(* ================================================================== *)

Module Complete.
Import JS Errors Client Operations.

(** A parsed URL, an instance of the class [URL]: [url_resource] is its
    serialization without the query (scheme, host, port and path, in
    normal form: dot segments resolved, characters encoded);
    [url_searchParams] is the list of the name-value pairs of its
    query, which [url.searchParams] edits. *)
Record URL : Type := mkURL {
  url_resource : string;
  url_searchParams : list (string * string)
}.

(** What [new URL(text)] throws when the text does not parse (wording of
    Node.js; no statement below depends on the wording). *)
Definition TypeError_invalid_URL : Thrown :=
  ThrowNative "TypeError" "Invalid URL".

(** [URLSearchParams.prototype.set] (WHATWG URL 6.2): the first pair of
    that name takes the value and the other pairs of that name are
    removed; without such a pair, one is appended. *)
Definition remove_named (name : string) (pairs : list (string * string))
  : list (string * string) :=
  filter (fun pair => negb (String.eqb (fst pair) name)) pairs.

Fixpoint searchParams_set (pairs : list (string * string)) (name value : string)
  : list (string * string) :=
  match pairs with
  | [] => [(name, value)]
  | (k, v) :: rest =>
      if String.eqb k name then (k, value) :: remove_named name rest
      else (k, v) :: searchParams_set rest name value
  end.

Section WithClient.
(** [new URL(text)]: the parser of the runtime, [None] when it throws. *)
Variable new_URL : string -> option URL.
Variable self : Subformer.
Variable env : Env.

(** The query of [url] after the loop over [options.params]. *)
Definition query_of (url : URL)
    (params : option (list (string * option ParamValue)))
  : list (string * string) :=
  match params with
  | None => url_searchParams url
  | Some entries =>
      fold_left
        (fun query entry =>
           match snd entry with
           | Some value => searchParams_set query (fst entry) (String_of value)
           | None => query
           end)
        entries (url_searchParams url)
  end.

(** The arguments [request] gives to [fetch]: [url.toString()] as its
    resource and its query. *)
Definition fetch_arguments (url : URL) (method : string)
    (options : option RequestOptions) (timeoutId : nat) : FetchCall :=
  {| fc_url := url_resource url;
     fc_query := query_of url (match options with
                               | Some o => request_params o
                               | None => None
                               end);
     fc_method := method;
     fc_headers := [("x-api-key", apiKey self);
                    ("Content-Type", "application/json")];
     fc_body := match options with
                | Some o =>
                    match request_body o with
                    | Some b => if truthy b then Some b else None
                    | None => None
                    end
                | None => None
                end;
     fc_signal := timeoutId |}.

(** [request]: the URL is built before the [try], so that the TypeError
    of a text that does not parse reaches the caller as it is, before
    any timer or call. *)
Definition request (method path : string) (options : option RequestOptions)
  : M JsValue :=
  match new_URL (baseUrl self ++ path) with
  | None => throw TypeError_invalid_URL
  | Some url => request_call self env (fetch_arguments url method options)
  end.

Definition dub (options : DubOptions) : M JsValue :=
  Methods.dub request options.

Definition getLanguages : M JsValue :=
  Methods.getLanguages request.

Definition getJob (jobId : string) : M JsValue :=
  Methods.getJob request jobId.

Definition listJobs (options : option ListJobsOptions) : M JsValue :=
  Methods.listJobs request options.

Definition deleteJobs (jobIds : list string) : M JsValue :=
  Methods.deleteJobs request jobIds.

Definition cloneVoice (options : CloneVoiceOptions) : M JsValue :=
  Methods.cloneVoice request options.

Definition synthesizeVoice (options : SynthesizeVoiceOptions) : M JsValue :=
  Methods.synthesizeVoice request options.

Definition listVoices : M JsValue :=
  Methods.listVoices request.

Definition getVoice (voiceId : string) : M JsValue :=
  Methods.getVoice request voiceId.

Definition createVoice (options : CreateVoiceOptions) : M JsValue :=
  Methods.createVoice request options.

Definition updateVoice (options : UpdateVoiceOptions) : M JsValue :=
  Methods.updateVoice request options.

Definition deleteVoice (voiceId : string) : M JsValue :=
  Methods.deleteVoice request voiceId.

Definition generateVoiceUploadUrl (options : GenerateVoiceUploadUrlOptions)
  : M JsValue :=
  Methods.generateVoiceUploadUrl request options.

Definition getUsage : M JsValue :=
  Methods.getUsage request.

Definition getUsageHistory : M JsValue :=
  Methods.getUsageHistory request.

Definition getMe : M JsValue :=
  Methods.getMe request.

Definition updateMe (options : UpdateUserOptions) : M JsValue :=
  Methods.updateMe request options.

Definition getRateLimit : M JsValue :=
  Methods.getRateLimit request.
End WithClient.

End Complete.

(* ================================================================== *)
(** * Further vocabulary *)
(* ================================================================== *)

Module Behaviour.
Import JS Errors Client Spec Operations.
Import Complete (URL, TypeError_invalid_URL).

(** A text ends in a given suffix. *)
Definition ends_in (text suffix : string) : Prop :=
  exists before, text = before ++ suffix.


(** A decimal digit. *)
Definition digit (c : ascii) : Prop :=
  In c ["0"; "1"; "2"; "3"; "4"; "5"; "6"; "7"; "8"; "9"]%char.

(** A text that starts with YYYY-MM-DDT. *)
Definition has_date_prefix (text : string) : Prop :=
  exists y1 y2 y3 y4 m1 m2 d1 d2 rest,
    digit y1 /\ digit y2 /\ digit y3 /\ digit y4
    /\ digit m1 /\ digit m2 /\ digit d1 /\ digit d2
    /\ text
       = String y1 (String y2 (String y3 (String y4 (String "-"
           (String m1 (String m2 (String "-"
             (String d1 (String d2 (String "T" rest)))))))))).

(** A field that the walk converts: its name ends in "At" or in "On"
    and its value is a text that starts with YYYY-MM-DDT. *)
Definition is_date_field (key : string) (value : Json) : Prop :=
  exists text,
    value = JString text
    /\ (ends_in key "At" \/ ends_in key "On")
    /\ has_date_prefix text.

(** No field of the document, at any depth, is one that the walk
    converts. *)
Fixpoint without_dates (j : Json) : Prop :=
  match j with
  | JArray items =>
      (fix all (xs : list Json) : Prop :=
         match xs with
         | [] => True
         | x :: rest => without_dates x /\ all rest
         end) items
  | JObject fields =>
      (fix all (fs : list (string * Json)) : Prop :=
         match fs with
         | [] => True
         | entry :: rest =>
             ~ is_date_field (fst entry) (snd entry)
             /\ without_dates (snd entry)
             /\ all rest
         end) fields
  | _ => True
  end.

(** The same, decided with the tests of the code. *)
Fixpoint no_date_field (j : Json) : bool :=
  match j with
  | JArray items => forallb no_date_field items
  | JObject fields =>
      forallb (fun entry =>
                 match date_field (fst entry) (snd entry) with
                 | Some _ => false
                 | None => no_date_field (snd entry)
                 end)
              fields
  | _ => true
  end.

(** The own properties of a record. *)
Definition fields_of (v : JsValue) : list (string * JsValue) :=
  match v with
  | VObject fields | VObjectWith _ fields => fields
  | _ => []
  end.

(** What the k-th fetch makes [request] raise, if it makes it fail. *)
Definition fetch_failure (env : Env) (k : nat) : option Thrown :=
  match fetch_outcome env k with
  | Responded response =>
      if ok response then
        if (status response =? 204)%Z then None
        else match body response with
             | Decoded _ => None
             | Undecodable error => Some (normalized error)
             end
      else Some (normalized (classified response))
  | TimerFired abort_message =>
      Some (normalized (ThrowNative "AbortError" abort_message))
  | Rejected error => Some (normalized error)
  end.

(** The pause between two polls, in milliseconds. *)
Definition interval_ms (options : WaitForJobOptions) : Z :=
  (match wait_pollInterval options with Some s => s | None => 2 end * 1000)%Z.

(** An operation that, whatever the outcome, issues exactly one call
    and leaves the pending timers as they were. *)
Definition single_call (operation : M JsValue) : Prop :=
  forall w : World,
    length (fetches (snd (operation w))) = S (length (fetches w))
    /\ pending_timers (snd (operation w)) = pending_timers w.

(** An integer that a number holds exactly and that [String] prints in
    full, digit for digit: [Number.isSafeInteger]. *)
Definition safe_integer (n : Z) : Prop := (- 2 ^ 53 < n < 2 ^ 53)%Z.

(** An operation on the path [path]: when the URL of the call parses, it
    issues exactly one call and leaves the pending timers as they were;
    when it does not, the operation fails with the TypeError of
    [new URL] and has done nothing. *)
Definition one_call_if_parsed (new_URL : string -> option URL)
    (self : Subformer) (path : string) (operation : M JsValue) : Prop :=
  (new_URL (baseUrl self ++ path) <> None -> single_call operation)
  /\ (new_URL (baseUrl self ++ path) = None ->
      forall w : World, operation w = (Abrupt TypeError_invalid_URL, w)).

(** An operation on the path [path] that raises a member of the
    taxonomy, or else, when the URL of the call does not parse, the
    TypeError of [new URL]. *)
Definition raises_taxonomy_or_URL (new_URL : string -> option URL)
    (self : Subformer) (path : string) (operation : M JsValue) : Prop :=
  forall (w : World) t,
    fst (operation w) = Abrupt t ->
    (exists e, t = ThrowSubformer e)
    \/ (new_URL (baseUrl self ++ path) = None /\ t = TypeError_invalid_URL).

(** An operation on the path [path] that raises a member of the
    taxonomy, or the TypeError of [new URL] when the URL of the call
    does not parse, or else the TypeError of reading the property [key]
    of [null] or [undefined]. *)
Definition raises_taxonomy_URL_or_read (new_URL : string -> option URL)
    (self : Subformer) (path key : string) (operation : M JsValue) : Prop :=
  forall (w : World) t,
    fst (operation w) = Abrupt t ->
    (exists e, t = ThrowSubformer e)
    \/ (new_URL (baseUrl self ++ path) = None /\ t = TypeError_invalid_URL)
    \/ (exists what, t = TypeError_read what key).

End Behaviour.

(* ================================================================== *)
(** * Further scenarios *)
(* ================================================================== *)

Module Cases.
Import JS Errors Client Spec Operations Behaviour.

(** A transport that answers the k-th call with the k-th outcome of a
    list, and with the last one from then on; two seconds pass from one
    clock reading to the next. *)
Definition script (outcomes : list FetchOutcome) (last : FetchOutcome) : Env :=
  Scenario.ticking (fun k => nth k outcomes last).

Definition ok_with (json : Json) : FetchOutcome :=
  Responded (mkResponse 200 "OK" (Decoded json)).

(** A usage document, as the billing endpoint returns it. *)
Definition usage_data : list (string * Json) :=
  [("usedCredits", JNumber "12");
   ("planCredits", JNumber "100");
   ("periodStart", JString "2024-05-01T00:00:00.000Z");
   ("periodEnd", JString "2024-06-01T00:00:00.000Z")].

(** A page of jobs without any date in it. *)
Definition plain_page : Json :=
  JObject [("data", JArray [JObject [("id", JString "j1");
                                     ("state", JString "queued")]]);
           ("total", JNumber "1")].

(** The job is found queued once; the next call is answered 404. *)
Definition lost_after_one_poll : Env :=
  script [ok_with (Scenario.job_in "queued")]
         (Responded
            (mkResponse 404 "Not Found"
               (Decoded (JObject [("message", JString "Job not found")])))).

(** Every call is answered by a 204. *)
Definition no_content : Env :=
  Scenario.always (Responded (mkResponse 204 "No Content" (Decoded JNull))).

(** A URL parser given by what it answers on the texts of a scenario;
    it rejects every other text. *)
Definition parser (answers : list (string * Complete.URL))
  : string -> option Complete.URL :=
  fun text => lookup text answers.

(** The URLs of two calls of the default client, in normal form as they
    are written. *)
Definition default_URLs : string -> option Complete.URL :=
  parser [("https://api.subformer.com/v1/jobs",
           Complete.mkURL "https://api.subformer.com/v1/jobs" []);
          ("https://api.subformer.com/v1/jobs/j1",
           Complete.mkURL "https://api.subformer.com/v1/jobs/j1" [])].

(** A client whose base URL lacks the scheme; no URL it builds parses. *)
Definition no_scheme_client : Subformer :=
  constructor (mkSubformerOptions "sk_subformer_test"
                 (Some "api.example.com/v1") None).

Definition no_scheme_URLs : string -> option Complete.URL := parser [].

(** A client whose base URL has a dot segment, which the parser
    resolves. *)
Definition dotted_client : Subformer :=
  constructor (mkSubformerOptions "sk_subformer_test"
                 (Some "https://api.example.com/v1/../v2") None).

Definition dotted_URLs : string -> option Complete.URL :=
  parser [("https://api.example.com/v1/../v2/jobs",
           Complete.mkURL "https://api.example.com/v2/jobs" [])].

(** The wait of the specification's example, run to its end. *)
Definition three_polls : option (Completion JsValue * World) :=
  waitForJob Scenario.client Scenario.transitions 3 "j1" None initial_world.

End Cases.

(* ================================================================== *)
(** * Properties *)
(* ================================================================== *)

Import JS Errors Client Spec.

(** ** Induction over documents *)

Section JsonInduction.
Variable P : Json -> Prop.
Hypothesis Hnull : P JNull.
Hypothesis Hbool : forall b, P (JBool b).
Hypothesis Hnumber : forall t, P (JNumber t).
Hypothesis Hstring : forall s, P (JString s).
Hypothesis Harray : forall items, Forall P items -> P (JArray items).
Hypothesis Hobject :
  forall fields, Forall (fun entry => P (snd entry)) fields -> P (JObject fields).

Fixpoint Json_induction (j : Json) : P j :=
  match j with
  | JNull => Hnull
  | JBool b => Hbool b
  | JNumber t => Hnumber t
  | JString s => Hstring s
  | JArray items =>
      Harray items
        ((fix all (xs : list Json) : Forall P xs :=
            match xs with
            | [] => Forall_nil _
            | x :: rest => Forall_cons _ (Json_induction x) (all rest)
            end) items)
  | JObject fields =>
      Hobject fields
        ((fix all (xs : list (string * Json))
            : Forall (fun entry => P (snd entry)) xs :=
            match xs with
            | [] => Forall_nil _
            | e :: rest => Forall_cons _ (Json_induction (snd e)) (all rest)
            end) fields)
  end.
End JsonInduction.

(** ** Own properties *)

Lemma set_property_fresh {V} (fields : list (string * V)) key (v : V) :
  existsb (String.eqb key) (keys fields) = false ->
  set_property fields key v = (fields ++ [(key, v)])%list.
Proof.
  induction fields as [|[k old] rest IH]; simpl; intros H; [reflexivity|].
  apply orb_false_elim in H as [Hk Hrest].
  rewrite String.eqb_sym, Hk. now rewrite IH.
Qed.

Lemma distinct_app_cons (before : list string) key (rest : list string) :
  distinct (before ++ key :: rest) = true ->
  existsb (String.eqb key) before = false
  /\ distinct ((before ++ [key]) ++ rest) = true.
Proof.
  rewrite <- app_assoc. simpl.
  induction before as [|b before IH]; simpl; intros H.
  - split; [reflexivity | exact H].
  - apply andb_true_iff in H as [Hb Hd].
    destruct (IH Hd) as [Hfresh Hrest].
    rewrite negb_true_iff, existsb_app in Hb. simpl in Hb.
    apply orb_false_elim in Hb as [Hb1 Hb2].
    apply orb_false_elim in Hb2 as [Hbk Hb2].
    split.
    + rewrite String.eqb_sym, Hbk. exact Hfresh.
    + rewrite Hrest, andb_true_r, negb_true_iff, existsb_app. simpl.
      now rewrite Hb1, Hbk, Hb2.
Qed.

Lemma distinct_without (before : list string) key (rest : list string) :
  distinct (before ++ key :: rest) = true -> distinct (before ++ rest) = true.
Proof.
  induction before as [|b before IH]; simpl; intros H.
  - now apply andb_true_iff in H as [_ H].
  - apply andb_true_iff in H as [Hb Hd].
    rewrite (IH Hd), andb_true_r.
    rewrite negb_true_iff, existsb_app in Hb |- *. simpl in Hb.
    apply orb_false_elim in Hb as [Hb1 Hb2].
    apply orb_false_elim in Hb2 as [_ Hb2].
    now rewrite Hb1, Hb2.
Qed.

Lemma lookup_map {V W} (h : string * V -> W) key (fields : list (string * V)) :
  lookup key (map (fun entry => (fst entry, h entry)) fields)
  = option_map (fun v => h (key, v)) (lookup key fields).
Proof.
  induction fields as [|[k v] rest IH]; simpl; [reflexivity|].
  destruct (String.eqb_spec k key) as [->|]; [reflexivity | exact IH].
Qed.

Lemma lookup_absent {V} key (fields : list (string * V)) :
  lookup key fields = None <-> existsb (String.eqb key) (keys fields) = false.
Proof.
  induction fields as [|[k v] rest IH]; simpl; [tauto|].
  rewrite (String.eqb_sym key k).
  destruct (String.eqb k key); simpl; [split; discriminate | exact IH].
Qed.

Lemma lookup_app {V} key (before after : list (string * V)) :
  lookup key (before ++ after)
  = match lookup key before with
    | Some v => Some v
    | None => lookup key after
    end.
Proof.
  induction before as [|[k v] rest IH]; simpl; [reflexivity|].
  now destruct (String.eqb k key).
Qed.

(** ** Property writes *)

Lemma copied_fields_all {V} (fields : list (string * V)) :
  lookup "__proto__" fields = None -> copied_fields fields = fields.
Proof.
  unfold copied_fields.
  induction fields as [|[k v] rest IH]; [reflexivity|].
  cbn [lookup filter fst].
  destruct (String.eqb k "__proto__"); [discriminate|].
  intros H. cbn [negb]. now rewrite IH.
Qed.

Lemma lookup_copied_fields {V} key (fields : list (string * V)) :
  key <> "__proto__" ->
  lookup key (copied_fields fields) = lookup key fields.
Proof.
  intros Hkey. unfold copied_fields.
  induction fields as [|[k v] rest IH]; [reflexivity|].
  cbn [filter fst lookup].
  destruct (String.eqb_spec k "__proto__") as [->|Hk]; cbn [negb lookup].
  - apply String.eqb_neq in Hkey. rewrite String.eqb_sym in Hkey.
    rewrite Hkey. exact IH.
  - destruct (String.eqb k key); [reflexivity | exact IH].
Qed.

Lemma assign_own fields key v :
  key <> "__proto__" ->
  assign (VObject fields) key v = VObject (set_property fields key v).
Proof.
  intros Hkey. unfold assign.
  apply String.eqb_neq in Hkey. now rewrite Hkey.
Qed.

Lemma assign_own_with prototype fields key v :
  key <> "__proto__" ->
  assign (VObjectWith prototype fields) key v
  = VObjectWith prototype (set_property fields key v).
Proof.
  intros Hkey. unfold assign.
  apply String.eqb_neq in Hkey. now rewrite Hkey.
Qed.

(** The setter of [__proto__] on an object literal: no property is
    added; the prototype is replaced if the value is an object or
    [null]. *)
Lemma assign_proto fields v :
  lookup "__proto__" fields = None ->
  assign (VObject fields) "__proto__" v
  = object_with (if is_object_or_null v then Some v else None) fields.
Proof.
  intros Hown. unfold assign, inherits_proto_accessor, has_own.
  rewrite Hown. simpl. now destruct (is_object_or_null v).
Qed.

Section FoldAssign.
Context {V : Type}.
Variable g : string * V -> JsValue.

(** Writing entries none of which is named [__proto__]. *)
Lemma fold_assign_own (entries : list (string * V)) :
  forall result : list (string * JsValue),
    distinct (keys result ++ keys entries) = true ->
    lookup "__proto__" entries = None ->
    fold_left (fun r entry => assign r (fst entry) (g entry)) entries
              (VObject result)
    = VObject (result ++ map (fun entry => (fst entry, g entry)) entries)
    /\ forall prototype,
         fold_left (fun r entry => assign r (fst entry) (g entry)) entries
                   (VObjectWith prototype result)
         = VObjectWith prototype
             (result ++ map (fun entry => (fst entry, g entry)) entries).
Proof.
  induction entries as [|[k v] rest IH]; intros result H Hproto;
    cbn [fold_left map fst].
  - rewrite app_nil_r. split; reflexivity.
  - cbn [lookup] in Hproto.
    destruct (String.eqb_spec k "__proto__") as [|Hk]; [discriminate|].
    unfold keys in H. cbn [map fst] in H.
    apply distinct_app_cons in H as [Hfresh Hrest].
    rewrite assign_own by exact Hk.
    rewrite set_property_fresh by exact Hfresh.
    destruct (IH (result ++ [(k, g (k, v))])%list) as [Hplain Hwith].
    + unfold keys. now rewrite map_app.
    + exact Hproto.
    + rewrite <- app_assoc in Hplain, Hwith. split; [exact Hplain|].
      intros prototype. rewrite assign_own_with by exact Hk.
      rewrite set_property_fresh by exact Hfresh.
      apply Hwith.
Qed.

(** Writing the entries of a record one by one into a fresh object
    literal: every entry becomes an own property, in order, but an entry
    named [__proto__], which sets the prototype instead. *)
Lemma fold_assign (entries : list (string * V)) :
  forall result : list (string * JsValue),
    distinct (keys result ++ keys entries) = true ->
    lookup "__proto__" result = None ->
    fold_left (fun r entry => assign r (fst entry) (g entry)) entries
              (VObject result)
    = object_with
        (match lookup "__proto__" entries with
         | Some v =>
             if is_object_or_null (g ("__proto__", v))
             then Some (g ("__proto__", v))
             else None
         | None => None
         end)
        (result
         ++ map (fun entry => (fst entry, g entry)) (copied_fields entries)).
Proof.
  unfold copied_fields.
  induction entries as [|[k v] rest IH]; intros result H Hown;
    cbn [fold_left map fst lookup filter].
  - now rewrite app_nil_r.
  - unfold keys in H. cbn [map fst] in H. fold (keys result) (keys rest) in H.
    destruct (String.eqb_spec k "__proto__") as [->|Hk]; cbn [negb].
    + rewrite assign_proto by exact Hown.
      assert (Hrest : distinct (keys result ++ keys rest) = true)
        by now apply distinct_without in H.
      assert (Hnone : lookup "__proto__" rest = None).
      { apply lookup_absent.
        clear - H. induction (keys result) as [|r rs IHr].
        - cbn [app distinct] in H.
          apply andb_true_iff in H as [H _]. now apply negb_true_iff in H.
        - cbn [app distinct] in H.
          apply andb_true_iff in H as [_ H]. now apply IHr. }
      fold (copied_fields rest). rewrite (copied_fields_all rest Hnone).
      destruct (fold_assign_own rest result Hrest Hnone) as [Hplain Hwith].
      destruct (is_object_or_null (g ("__proto__", v))); cbn [object_with].
      * apply Hwith.
      * apply Hplain.
    + apply distinct_app_cons in H as [Hfresh Hrest].
      rewrite assign_own by exact Hk.
      rewrite set_property_fresh by exact Hfresh.
      rewrite IH.
      * cbn [map fst]. now rewrite <- app_assoc.
      * unfold keys. now rewrite map_app.
      * rewrite lookup_app, Hown. cbn [lookup].
        apply String.eqb_neq in Hk. now rewrite Hk.
Qed.

(** Whatever is written, the result is a record. *)
Lemma fold_assign_record (entries : list (string * V)) :
  forall result,
    is_record result = true ->
    is_record (fold_left (fun r entry => assign r (fst entry) (g entry))
                 entries result) = true.
Proof.
  induction entries as [|[k v] rest IH]; intros result H;
    cbn [fold_left fst]; [exact H|].
  apply IH. unfold assign.
  destruct result; try discriminate;
    match goal with
    | |- context [if ?c then _ else _] => destruct c
    end; try reflexivity;
    now destruct (is_object_or_null (g (k, v))).
Qed.
End FoldAssign.

(** ** The date walk *)

Lemma fold_left_pointwise {A B} (f h : A -> B -> A) (l : list B) :
  (forall a b, f a b = h a b) ->
  forall a, fold_left f l a = fold_left h l a.
Proof.
  intros Hfh. induction l as [|b l IH]; simpl; intros a; [reflexivity|].
  now rewrite Hfh, IH.
Qed.

(** The loop of [transformDates] over the entries of a record. *)
Lemma transformDates_loop fields :
  transformDates (JObject fields)
  = fold_left
      (fun result entry =>
         assign result (fst entry) (converted (fst entry) (snd entry)))
      fields (VObject []).
Proof.
  simpl. apply fold_left_pointwise. intros result [k v]. simpl.
  unfold converted, date_field. destruct v; try reflexivity.
  now destruct ((endsWith k "At" || endsWith k "On") && iso_date_prefix s).
Qed.

Lemma converted_proto (value : Json) :
  converted "__proto__" value = transformDates value.
Proof. unfold converted, date_field. now destruct value. Qed.

(** The result of the walk for a record. *)
Lemma transformDates_record fields :
  distinct (keys fields) = true ->
  transformDates (JObject fields)
  = object_with (installed_prototype fields)
      (map (fun entry => (fst entry, converted (fst entry) (snd entry)))
           (copied_fields fields)).
Proof.
  intros Hkeys. rewrite transformDates_loop.
  rewrite (fold_assign (fun entry => converted (fst entry) (snd entry))
             fields [] Hkeys eq_refl).
  unfold installed_prototype. simpl.
  destruct (lookup "__proto__" fields) as [value|]; [|reflexivity].
  now rewrite converted_proto.
Qed.

Lemma transformDates_is_record fields :
  is_record (transformDates (JObject fields)) = true.
Proof. rewrite transformDates_loop. now apply fold_assign_record. Qed.

Lemma get_property_record (v : JsValue) key :
  is_record v = true -> get_property v key = Normal (js_get v key).
Proof. now destruct v. Qed.

Lemma transformDates_date_walk (j : Json) :
  unique_keys j = true ->
  no_proto_key j = true ->
  transformDates j = spec_date_walk j.
Proof.
  induction j as [| | | |items IH|fields IH] using Json_induction;
    intros H Hproto; try reflexivity.
  - simpl in *. f_equal. apply map_ext_in. intros item Hin.
    rewrite Forall_forall in IH. rewrite forallb_forall in H, Hproto.
    apply IH; [exact Hin | now apply H | now apply Hproto].
  - simpl in H, Hproto.
    apply andb_true_iff in H as [Hkeys Hall].
    apply andb_true_iff in Hproto as [Hnone Hrest].
    apply negb_true_iff in Hnone. unfold has_own in Hnone.
    assert (Hlookup : lookup "__proto__" fields = None)
      by now destruct (lookup "__proto__" fields).
    rewrite transformDates_record by exact Hkeys.
    unfold installed_prototype. rewrite Hlookup, copied_fields_all by exact Hlookup.
    simpl. f_equal. apply map_ext_in. intros [k v] Hin. simpl.
    rewrite Forall_forall in IH. rewrite forallb_forall in Hall, Hrest.
    specialize (IH _ Hin). specialize (Hall _ Hin). specialize (Hrest _ Hin).
    simpl in IH, Hall, Hrest.
    unfold converted. destruct (date_field k v); [reflexivity|].
    f_equal. now apply IH.
Qed.

(** ** One call of [request], outcome by outcome *)

Lemma update_timer_last (ts : list Timer) f t :
  update_timer (length ts) f (ts ++ [t])%list = (ts ++ [f t])%list.
Proof. induction ts as [|a ts IH]; simpl; [reflexivity | now rewrite IH]. Qed.

Lemma request_catch_normalized {A} id (error : Thrown) (w : World) :
  @request_catch A id error w
  = (Abrupt (normalized error), with_timers (update_timer id clear) w).
Proof.
  unfold request_catch, bind, clearTimeout, throw. simpl.
  destruct error as [e|n m|]; simpl; try reflexivity.
  now destruct (String.eqb n "AbortError").
Qed.

Lemma error_fields_body (response : Response) :
  error_fields response
    (match body response with
     | Decoded json => Normal json
     | Undecodable error => Abrupt error
     end)
  = (failure_message response,
     body_field response "code",
     body_field response "data").
Proof.
  unfold error_fields, failure_message, body_field.
  destruct (body response) as [json|error]; [|reflexivity].
  destruct json; try reflexivity.
Qed.

Lemma handleError_classified (response : Response) (w : World) :
  handleError response w
  = (Abrupt (classified response),
     mkWorld (fetches w) (timers w) (aborted w) (S (json_reads w))
             (clock_reads w) (sleeps w)).
Proof.
  unfold handleError, response_json.
  pose proof (error_fields_body response) as Hfields.
  destruct (body response) as [json|error]; rewrite Hfields;
    unfold classified, taxonomy_row, throw_new, throw;
    destruct (status response =? 401)%Z; try reflexivity;
    destruct (status response =? 404)%Z; try reflexivity;
    destruct (status response =? 429)%Z; try reflexivity;
    destruct (status response =? 400)%Z; reflexivity.
Qed.

Lemma request_call_outcome self env arguments (w : World) :
  (forall id, fc_signal (arguments id) = id) ->
  request_call self env arguments w
  = let call := arguments (length (timers w)) in
    match fetch_outcome env (length (fetches w)) with
    | Responded response =>
        if ok response then
          if (status response =? 204)%Z
          then (Normal VUndefined, after_request self w call Cleared 0)
          else match body response with
               | Decoded json =>
                   (Normal (transformDates json),
                    after_request self w call Cleared 1)
               | Undecodable error =>
                   (Abrupt (normalized error),
                    after_request self w call Cleared 1)
               end
        else (Abrupt (normalized (classified response)),
              after_request self w call Cleared 1)
    | TimerFired abort_message =>
        (Abrupt (normalized (ThrowNative "AbortError" abort_message)),
         after_request self w call Fired 0)
    | Rejected error =>
        (Abrupt (normalized error), after_request self w call Cleared 0)
    end.
Proof.
  intros Hsignal.
  unfold request_call, bind, try_catch, setTimeout, fetch, clearTimeout,
    timer_fires.
  simpl. rewrite Hsignal.
  destruct (fetch_outcome env (length (fetches w))) as [response|msg|error];
    simpl.
  - destruct (ok response); simpl.
    + destruct (status response =? 204)%Z; unfold ret, with_timers; simpl.
      * now rewrite update_timer_last.
      * unfold response_json; simpl.
        destruct (body response) as [json|error]; simpl.
        -- now rewrite update_timer_last.
        -- rewrite request_catch_normalized. unfold with_timers; simpl.
           now rewrite !update_timer_last.
    + rewrite handleError_classified; simpl.
      rewrite request_catch_normalized. unfold with_timers; simpl.
      now rewrite !update_timer_last.
  - rewrite request_catch_normalized. unfold with_timers; simpl.
    now rewrite !update_timer_last.
  - rewrite request_catch_normalized. unfold with_timers; simpl.
    now rewrite !update_timer_last.
Qed.

Lemma request_outcome self env method path options (w : World) :
  request self env method path options w
  = let call := fetch_arguments self method path options (length (timers w)) in
    match fetch_outcome env (length (fetches w)) with
    | Responded response =>
        if ok response then
          if (status response =? 204)%Z
          then (Normal VUndefined, after_request self w call Cleared 0)
          else match body response with
               | Decoded json =>
                   (Normal (transformDates json),
                    after_request self w call Cleared 1)
               | Undecodable error =>
                   (Abrupt (normalized error),
                    after_request self w call Cleared 1)
               end
        else (Abrupt (normalized (classified response)),
              after_request self w call Cleared 1)
    | TimerFired abort_message =>
        (Abrupt (normalized (ThrowNative "AbortError" abort_message)),
         after_request self w call Fired 0)
    | Rejected error =>
        (Abrupt (normalized error), after_request self w call Cleared 0)
    end.
Proof. now apply request_call_outcome. Qed.

(** ** Error classification *)

(** A message that is absent, [null], a text, a number or a boolean
    always has a text; so has a record without an own [toString] entry. *)
Lemma failure_message_converts (response : Response) :
  match body_field response "message" with
  | Some (JArray _) => False
  | Some (JObject fields) => has_own "toString" fields = false
  | _ => True
  end ->
  ToString (failure_message response) <> None.
Proof.
  unfold failure_message.
  destruct (body_field response "message") as [[| b | t | s | items | fields]|];
    simpl; try discriminate.
  - contradiction.
  - now intros ->.
Qed.

Lemma classified_status_not_ok (response : Response) :
  In (status response) [401; 404; 429; 400]%Z -> ok response = false.
Proof.
  unfold ok. simpl.
  intros [<- | [<- | [<- | [<- | []]]]]; reflexivity.
Qed.

(** Classification by status.  For every response with status 401, 404,
    429 or 400 whose failure message has a text (any body that does not
    decode, any body without a [message], any [message] that ToString
    converts: every text, number and boolean), [request] raises exactly
    the member of the taxonomy that the table of section 4.1 gives, with
    the fixed status code and code, whatever else the body holds; the
    validation error carries the [data] field of the body. *)
Theorem classified_status_raises_member
    self env method path options (w : World) (response : Response) :
  fetch_outcome env (length (fetches w)) = Responded response ->
  In (status response) [401; 404; 429; 400]%Z ->
  ToString (failure_message response) <> None ->
  exists e fixed_code,
    fst (request self env method path options w) = Abrupt (ThrowSubformer e)
    /\ taxonomy_row (status response) = Some (class e, fixed_code)
    /\ statusCode e = Some (status response)
    /\ code e = Some (JString fixed_code)
    /\ (status response = 400%Z -> data e = body_field response "data").
Proof.
  intros Houtcome Hstatus Hmessage.
  rewrite request_outcome, Houtcome. simpl.
  rewrite (classified_status_not_ok response Hstatus). simpl.
  unfold classified, new_error.
  destruct (ToString (failure_message response)) as [text|];
    [clear Hmessage | contradiction].
  simpl in Hstatus.
  destruct Hstatus as [H | [H | [H | [H | []]]]]; rewrite <- H; simpl;
    eexists; eexists; repeat split; try reflexivity; discriminate.
Qed.

Lemma classified_status_raises_member_witness :
  exists e fixed_code,
    fst (request Scenario.client
           (Scenario.always
              (Responded (mkResponse 400 "Bad Request" Scenario.validation_body)))
           "POST" "/dub" None initial_world)
    = Abrupt (ThrowSubformer e)
    /\ taxonomy_row 400 = Some (class e, fixed_code)
    /\ statusCode e = Some 400%Z
    /\ code e = Some (JString fixed_code)
    /\ (400%Z = 400%Z ->
        data e = Some (JObject [("field", JString "url")])).
Proof.
  apply (classified_status_raises_member Scenario.client
           (Scenario.always
              (Responded (mkResponse 400 "Bad Request" Scenario.validation_body)))
           "POST" "/dub" None initial_world
           (mkResponse 400 "Bad Request" Scenario.validation_body)).
  - reflexivity.
  - simpl. auto.
  - simpl. discriminate.
Defined.

(** C1: the classification by status is lost for a body whose [message]
    has no text.  A 401 whose body is [{"message": {"toString": null}}]
    does not raise the authentication error: [handleError] reads the
    body inside its [try], but constructing the error, outside it,
    throws a TypeError, which the [catch] clause of [request] wraps as a
    Generic error without status code or code. *)
Lemma unconvertible_message_401_not_classified :
  let outcome :=
    fst (request Scenario.client
           (Scenario.always
              (Responded (mkResponse 401 "Unauthorized" Scenario.unconvertible_body)))
           "GET" "/jobs/j1" None initial_world) in
  (exists e, outcome = Abrupt (ThrowSubformer e)
             /\ class e = Generic /\ statusCode e = None /\ code e = None)
  /\ ~ (exists e, outcome = Abrupt (ThrowSubformer e)
                  /\ class e = Authentication
                  /\ statusCode e = Some 401%Z).
Proof.
  split.
  - eexists. repeat split; reflexivity.
  - intros [e [H [Hclass _]]]. vm_compute in H.
    injection H as <-. discriminate.
Qed.

Lemma unclassified_status_row (status : Z) :
  ~ In status [401; 404; 429; 400]%Z -> taxonomy_row status = None.
Proof.
  intros H. unfold taxonomy_row.
  destruct (Z.eqb_spec status 401); [exfalso; apply H; simpl; auto|].
  destruct (Z.eqb_spec status 404); [exfalso; apply H; simpl; auto|].
  destruct (Z.eqb_spec status 429); [exfalso; apply H; simpl; auto|].
  destruct (Z.eqb_spec status 400); [exfalso; apply H; simpl; auto|].
  reflexivity.
Qed.

(** The other statuses.  For every response with a non-success status
    other than 401, 404, 429 and 400 whose failure message has a text,
    [request] raises the Generic kind; its status code is the status of
    the response, its code and data are those of the decoded body
    (undefined when the body does not decode). *)
Theorem unclassified_status_raises_generic
    self env method path options (w : World) (response : Response) :
  fetch_outcome env (length (fetches w)) = Responded response ->
  ok response = false ->
  ~ In (status response) [401; 404; 429; 400]%Z ->
  ToString (failure_message response) <> None ->
  exists e,
    fst (request self env method path options w) = Abrupt (ThrowSubformer e)
    /\ class e = Generic
    /\ statusCode e = Some (status response)
    /\ code e = body_field response "code"
    /\ data e = body_field response "data".
Proof.
  intros Houtcome Hok Hstatus Hmessage.
  rewrite request_outcome, Houtcome. simpl. rewrite Hok.
  unfold classified, new_error.
  rewrite (unclassified_status_row _ Hstatus).
  destruct (ToString (failure_message response)) as [text|];
    [clear Hmessage | contradiction].
  eexists. repeat split; reflexivity.
Qed.

Lemma unclassified_status_raises_generic_witness :
  exists e,
    fst (request Scenario.client
           (Scenario.always
              (Responded (mkResponse 502 "Bad Gateway" Scenario.upstream_body)))
           "GET" "/jobs/j1" None initial_world)
    = Abrupt (ThrowSubformer e)
    /\ class e = Generic
    /\ statusCode e = Some 502%Z
    /\ code e = Some (JString "UPSTREAM")
    /\ data e = None.
Proof.
  apply (unclassified_status_raises_generic Scenario.client
           (Scenario.always
              (Responded (mkResponse 502 "Bad Gateway" Scenario.upstream_body)))
           "GET" "/jobs/j1" None initial_world
           (mkResponse 502 "Bad Gateway" Scenario.upstream_body)).
  - reflexivity.
  - reflexivity.
  - simpl. intros [H | [H | [H | [H | []]]]]; discriminate.
  - simpl. discriminate.
Defined.

(** C2: the status of the response is lost for a body whose [message]
    has no text.  A 500 whose body is [{"message": {"toString": null}}]
    raises a Generic error that has no status code: the error carrying
    the status is never constructed, and the TypeError of its
    construction is wrapped instead. *)
Lemma unconvertible_message_500_loses_status :
  let outcome :=
    fst (request Scenario.client
           (Scenario.always
              (Responded
                 (mkResponse 500 "Internal Server Error"
                    Scenario.unconvertible_body)))
           "GET" "/jobs/j1" None initial_world) in
  (exists e, outcome = Abrupt (ThrowSubformer e)
             /\ class e = Generic /\ statusCode e = None)
  /\ ~ (exists e, outcome = Abrupt (ThrowSubformer e)
                  /\ class e = Generic
                  /\ statusCode e = Some 500%Z).
Proof.
  split.
  - eexists. repeat split; reflexivity.
  - intros [e [H [_ Hstatus]]]. vm_compute in H.
    injection H as <-. discriminate.
Qed.

(** ** Timeout of one call *)

Lemma pending_timers_after_request self (w : World) call status decodes :
  status <> Pending ->
  pending_timers (after_request self w call status decodes) = pending_timers w.
Proof.
  intros H. unfold pending_timers, after_request. simpl.
  rewrite filter_app. simpl. unfold is_pending. simpl.
  destruct status; [contradiction | |]; apply app_nil_r.
Qed.

(** What [request] leaves behind, whatever the outcome of the call. *)
Lemma request_call_world self env arguments (w : World) :
  (forall id, fc_signal (arguments id) = id) ->
  exists status decodes,
    status <> Pending
    /\ snd (request_call self env arguments w)
       = after_request self w (arguments (length (timers w))) status decodes.
Proof.
  intros Hsignal. rewrite request_call_outcome by exact Hsignal. simpl.
  destruct (fetch_outcome env (length (fetches w))) as [response|msg|error].
  - destruct (ok response);
      [destruct (status response =? 204)%Z;
         [|destruct (body response)] |];
      simpl; eexists; eexists; (split; [|reflexivity]); discriminate.
  - simpl; eexists; eexists; (split; [|reflexivity]); discriminate.
  - simpl; eexists; eexists; (split; [|reflexivity]); discriminate.
Qed.

Lemma request_world self env method path options (w : World) :
  exists status decodes,
    status <> Pending
    /\ snd (request self env method path options w)
       = after_request self w
           (fetch_arguments self method path options (length (timers w)))
           status decodes.
Proof. now apply request_call_world. Qed.

(** C6: when the timer of the call fires before the call settles, the
    call in flight is cancelled and [request] fails with the Generic
    error whose message is exactly "Request timeout"; and on every exit
    path the timer the call created is no longer pending: it fired or
    was cleared, and the pending timers are those that were pending
    before. *)
Theorem request_timeout_and_timer
    self env method path options (w : World) :
  (forall abort_message,
      fetch_outcome env (length (fetches w)) = TimerFired abort_message ->
      fst (request self env method path options w)
      = Abrupt (ThrowSubformer (SubformerError (Some "Request timeout") None))
      /\ message (SubformerError (Some "Request timeout") None)
         = "Request timeout"
      /\ aborted (snd (request self env method path options w))
         = (aborted w ++ [length (fetches w)])%list
      /\ nth_error (timers (snd (request self env method path options w)))
                   (length (timers w))
         = Some (mkTimer (timeout self) Fired))
  /\ (exists settled,
         settled <> Pending
         /\ timers (snd (request self env method path options w))
            = (timers w ++ [mkTimer (timeout self) settled])%list)
  /\ pending_timers (snd (request self env method path options w))
     = pending_timers w.
Proof.
  split; [|split].
  - intros abort_message Houtcome.
    rewrite request_outcome, Houtcome. simpl.
    repeat split.
    rewrite nth_error_app2 by apply Nat.le_refl.
    now rewrite Nat.sub_diag.
  - destruct (request_world self env method path options w)
      as [status [decodes [Hstatus ->]]].
    exists status. split; [exact Hstatus | reflexivity].
  - destruct (request_world self env method path options w)
      as [status [decodes [Hstatus ->]]].
    now apply pending_timers_after_request.
Qed.

Lemma request_timeout_and_timer_witness :
  fst (request Scenario.client
         (Scenario.always (TimerFired "This operation was aborted"))
         "GET" "/jobs/j1" None initial_world)
  = Abrupt (ThrowSubformer (SubformerError (Some "Request timeout") None))
  /\ pending_timers
       (snd (request Scenario.client
               (Scenario.always (TimerFired "This operation was aborted"))
               "GET" "/jobs/j1" None initial_world))
     = [].
Proof.
  destruct (request_timeout_and_timer Scenario.client
              (Scenario.always (TimerFired "This operation was aborted"))
              "GET" "/jobs/j1" None initial_world) as [Hfired [_ Hpending]].
  split.
  - apply (Hfired "This operation was aborted"). reflexivity.
  - exact Hpending.
Defined.

(** ** Empty responses *)

(** C9: a 204 response yields [undefined], and its body is never
    decoded, whatever it holds. *)
Theorem no_content_is_undefined
    self env method path options (w : World) (response : Response) :
  fetch_outcome env (length (fetches w)) = Responded response ->
  status response = 204%Z ->
  fst (request self env method path options w) = Normal VUndefined
  /\ json_reads (snd (request self env method path options w)) = json_reads w.
Proof.
  intros Houtcome Hstatus.
  rewrite request_outcome, Houtcome. simpl.
  unfold ok. rewrite Hstatus. simpl. split; reflexivity.
Qed.

Lemma no_content_is_undefined_witness :
  fst (request Scenario.client
         (Scenario.always
            (Responded (mkResponse 204 "No Content" Scenario.validation_body)))
         "DELETE" "/jobs" None initial_world)
  = Normal VUndefined
  /\ json_reads
       (snd (request Scenario.client
               (Scenario.always
                  (Responded
                     (mkResponse 204 "No Content" Scenario.validation_body)))
               "DELETE" "/jobs" None initial_world))
     = 0.
Proof.
  apply (no_content_is_undefined Scenario.client
           (Scenario.always
              (Responded (mkResponse 204 "No Content" Scenario.validation_body)))
           "DELETE" "/jobs" None initial_world
           (mkResponse 204 "No Content" Scenario.validation_body));
    reflexivity.
Defined.

(** ** Default messages *)

(** C7 (as amended): the three status-specific kinds that default their
    message are constructible without one and then carry a non-empty
    default; [SubformerError] and [ValidationError] declare the message
    as a required parameter and carry the message they are given. *)
Theorem default_messages :
  has_default_message AuthenticationError
  /\ has_default_message NotFoundError
  /\ has_default_message RateLimitError
  /\ message (AuthenticationError None) = "Invalid or missing API key"
  /\ message (NotFoundError None) = "Resource not found"
  /\ message (RateLimitError None) = "Rate limit exceeded"
  /\ (forall m options, message (SubformerError (Some m) options) = m)
  /\ (forall m d, message (ValidationError (Some m) d) = m).
Proof.
  unfold has_default_message. simpl.
  repeat split; discriminate.
Qed.

(** C7, as stated, fails: the base class and the validation error have
    no default message; without a message argument theirs is empty. *)
Lemma base_and_validation_have_no_default :
  ~ has_default_message (fun m => SubformerError m None)
  /\ ~ has_default_message (fun m => ValidationError m None).
Proof.
  unfold has_default_message. simpl.
  split; intros H; now apply H.
Qed.

(** ** Date normalization *)

(** A field of a record after the walk. *)
Lemma transformDates_field fields key value :
  distinct (keys fields) = true ->
  key <> "__proto__" ->
  lookup key fields = Some value ->
  js_get (transformDates (JObject fields)) key
  = match date_field key value with
    | Some text => VDate text
    | None => transformDates value
    end.
Proof.
  intros Hkeys Hkey Hlookup.
  rewrite transformDates_record by exact Hkeys.
  assert (Hown :
            lookup key
              (map (fun entry => (fst entry, converted (fst entry) (snd entry)))
                   (copied_fields fields))
            = Some (converted key value)).
  { rewrite (lookup_map (fun entry => converted (fst entry) (snd entry))).
    rewrite lookup_copied_fields by exact Hkey. now rewrite Hlookup. }
  destruct (installed_prototype fields); cbn [object_with js_get];
    now rewrite Hown.
Qed.

(** On a decoded document in which no field is named [__proto__],
    [transformDates] is the walk of the specification: a field whose
    name ends in "At" or "On" and whose value is a text with the prefix
    YYYY-MM-DDT becomes a date; the walk recurses into records and into
    the elements of arrays; every other value, [null] and the scalars
    included, comes back as it is.  It is what [request] returns for a
    successful response other than 204. *)
Theorem transformDates_is_date_walk (j : Json) :
  unique_keys j = true ->
  no_proto_key j = true ->
  transformDates j = spec_date_walk j
  /\ (forall fields key value,
         j = JObject fields ->
         lookup key fields = Some value ->
         js_get (transformDates j) key
         = match date_field key value with
           | Some text => VDate text
           | None => transformDates value
           end)
  /\ (forall self env method path options (w : World) (response : Response),
         fetch_outcome env (length (fetches w)) = Responded response ->
         ok response = true ->
         status response <> 204%Z ->
         body response = Decoded j ->
         fst (request self env method path options w) = Normal (spec_date_walk j)).
Proof.
  intros Hkeys Hproto. split; [now apply transformDates_date_walk|]. split.
  { intros fields key value -> Hlookup.
    simpl in Hkeys, Hproto.
    apply andb_true_iff in Hkeys as [Hdistinct _].
    apply andb_true_iff in Hproto as [Hnone _].
    apply transformDates_field; [exact Hdistinct | | exact Hlookup].
    intros ->. unfold has_own in Hnone. now rewrite Hlookup in Hnone. }
  intros self env method path options w response Houtcome Hok Hstatus Hbody.
  rewrite request_outcome, Houtcome. cbv beta iota zeta. rewrite Hok, Hbody.
  apply Z.eqb_neq in Hstatus. rewrite Hstatus. cbn [fst].
  now rewrite transformDates_date_walk.
Qed.

Lemma transformDates_is_date_walk_witness :
  transformDates Scenario.job_document
  = VObject [("id", VString "j1");
             ("state", VString "completed");
             ("createdAt", VDate "2024-05-01T10:00:00.000Z");
             ("finishedOn", VDate "2024-05-01T10:03:20.000Z");
             ("startedAt", VString "yesterday");
             ("title", VString "2024-05-01T10:00:00.000Z");
             ("progress", VNumber "100");
             ("metadata", VNull);
             ("steps", VArray [VObject [("processedOn",
                                         VDate "2024-05-01T10:01:00.000Z")]])].
Proof.
  rewrite (proj1 (transformDates_is_date_walk Scenario.job_document
                    eq_refl eq_refl)).
  reflexivity.
Defined.

(** C3: a field named [__proto__] is not left unchanged; the walk of
    [transformDates] diverges from the walk of the specification there.
    The field of [{"id": "j1", "__proto__": "x", "state": "queued"}] is
    no date field, and has a name no other field has; yet the result has
    no such field: it is dropped, and [request] returns the job without
    it.  When the field holds a record, that record becomes the
    prototype of the result: the result of
    [{"id": "j1", "__proto__": {"state": "completed"}}] has the one own
    property [id], and its [state] reads "completed" although the job
    has no state. *)
Theorem transformDates_drops_proto_field :
  unique_keys Scenario.proto_text_document = true
  /\ date_field "__proto__" (JString "x") = None
  /\ spec_date_walk Scenario.proto_text_document
     = VObject [("id", VString "j1");
                ("__proto__", VString "x");
                ("state", VString "queued")]
  /\ transformDates Scenario.proto_text_document
     = VObject [("id", VString "j1"); ("state", VString "queued")]
  /\ fst (request Scenario.client
            (Scenario.always
               (Responded
                  (mkResponse 200 "OK" (Decoded Scenario.proto_text_document))))
            "GET" "/jobs/j1" None initial_world)
     = Normal (VObject [("id", VString "j1"); ("state", VString "queued")])
  /\ transformDates Scenario.proto_record_document
     = VObjectWith (VObject [("state", VString "completed")])
         [("id", VString "j1")]
  /\ json_get Scenario.proto_record_document "state" = None
  /\ js_get (transformDates Scenario.proto_record_document) "state"
     = VString "completed".
Proof. repeat split. Qed.

(** ** Unwrapping an envelope *)

(** [const response = await request(...); return response.key]. *)
Lemma unwrap_outcome self env method path options key (w : World) :
  fst ((response <- request self env method path options ;;
        lift (get_property response key)) w)
  = match fst (request self env method path options w) with
    | Normal response => get_property response key
    | Abrupt t => Abrupt t
    end.
Proof.
  unfold bind, lift.
  now destruct (request self env method path options w) as [[response|t] w'].
Qed.

Lemma unwrap_record self env method path options key (w : World)
    (response : Response) fields :
  fetch_outcome env (length (fetches w)) = Responded response ->
  ok response = true ->
  status response <> 204%Z ->
  body response = Decoded (JObject fields) ->
  fst ((r <- request self env method path options ;;
        lift (get_property r key)) w)
  = Normal (js_get (transformDates (JObject fields)) key).
Proof.
  intros Houtcome Hok Hstatus Hbody.
  rewrite unwrap_outcome, request_outcome, Houtcome. cbv beta iota zeta.
  rewrite Hok, Hbody. apply Z.eqb_neq in Hstatus. rewrite Hstatus.
  cbn [fst]. apply get_property_record, transformDates_is_record.
Qed.

(** ** Dubbing *)

(** C8: [dub] issues one call, a POST to [/dub] whose body renames
    [source] to [type] and [language] to [toLanguage] and passes [url]
    and [disableWatermark] through; from a response envelope with a
    [job] field it returns that job, as [request] normalized it. *)
Theorem dub_posts_and_unwraps self env (options : DubOptions) (w : World) :
  fetches (snd (dub self env options w))
  = (fetches w ++
     [{| fc_url := baseUrl self ++ "/dub";
         fc_query := [];
         fc_method := "POST";
         fc_headers := [("x-api-key", apiKey self);
                        ("Content-Type", "application/json")];
         fc_body :=
           Some (VObject
                   [("type", VString (DubSource_text (dub_source options)));
                    ("url", VString (dub_url options));
                    ("toLanguage", VString (dub_language options));
                    ("disableWatermark",
                     optional_boolean (dub_disableWatermark options))]);
         fc_signal := length (timers w) |}])%list
  /\ (forall (response : Response) fields job,
         fetch_outcome env (length (fetches w)) = Responded response ->
         ok response = true ->
         status response <> 204%Z ->
         body response = Decoded (JObject fields) ->
         distinct (keys fields) = true ->
         lookup "job" fields = Some job ->
         fst (dub self env options w) = Normal (transformDates job)).
Proof.
  split.
  - unfold dub, bind, lift.
    destruct (request_world self env "POST" "/dub"
                (Some (mkRequestOptions (Some (dub_body options)) None)) w)
      as [settled [decodes [_ Hworld]]].
    destruct (request self env "POST" "/dub" _ w) as [[response|t] w'];
      simpl in *; subst w'; reflexivity.
  - intros response fields job Houtcome Hok Hstatus Hbody Hkeys Hjob.
    unfold dub.
    rewrite (unwrap_record _ _ _ _ _ _ _ response fields
               Houtcome Hok Hstatus Hbody).
    rewrite (transformDates_field fields "job" job Hkeys) by
      (discriminate || exact Hjob).
    unfold date_field. now destruct job.
Qed.

Lemma dub_posts_and_unwraps_witness :
  fst (dub Scenario.client
         (Scenario.always
            (Responded (mkResponse 200 "OK" (Decoded Scenario.job_envelope))))
         (mkDubOptions Youtube "https://youtube.com/watch?v=VIDEO_ID" "es-ES" None)
         initial_world)
  = Normal (transformDates Scenario.job_document).
Proof.
  apply (proj2 (dub_posts_and_unwraps Scenario.client
                  (Scenario.always
                     (Responded
                        (mkResponse 200 "OK" (Decoded Scenario.job_envelope))))
                  (mkDubOptions Youtube "https://youtube.com/watch?v=VIDEO_ID"
                     "es-ES" None)
                  initial_world)
           (mkResponse 200 "OK" (Decoded Scenario.job_envelope))
           [("job", Scenario.job_document)]
           Scenario.job_document).
  - reflexivity.
  - reflexivity.
  - discriminate.
  - reflexivity.
  - reflexivity.
  - reflexivity.
Defined.

(** ** Polling *)

(** The call [getJob] makes. *)
Lemma getJob_fetched self env jobId (w : World) job :
  fetched_job env (length (fetches w)) = Some job ->
  getJob self env jobId w
  = (Normal job,
     after_request self w
       (fetch_arguments self "GET" ("/jobs/" ++ jobId) None (length (timers w)))
       Cleared 1).
Proof.
  unfold fetched_job, getJob. intros H.
  rewrite request_outcome. simpl.
  destruct (fetch_outcome env (length (fetches w))) as [response| |];
    try discriminate.
  destruct (ok response); simpl in H; [|discriminate].
  destruct (status response =? 204)%Z; simpl in H; [discriminate|].
  destruct (body response); [|discriminate].
  now injection H as <-.
Qed.

(** Once the call is made, [request] only ever raises members of the
    taxonomy. *)
Lemma request_call_raises_taxonomy self env arguments (w : World) t :
  (forall id, fc_signal (arguments id) = id) ->
  fst (request_call self env arguments w) = Abrupt t ->
  exists e, t = ThrowSubformer e.
Proof.
  intros Hsignal. rewrite request_call_outcome by exact Hsignal. cbv zeta.
  assert (Hn : forall error, exists e, normalized error = ThrowSubformer e).
  { intros [e|n m|]; simpl; eexists; reflexivity. }
  destruct (fetch_outcome env (length (fetches w))) as [response|msg|error].
  - destruct (ok response);
      [destruct (status response =? 204)%Z; [|destruct (body response)]|];
      cbn [fst]; intros H; try discriminate;
      injection H as <-; apply Hn.
  - cbn [fst]. intros H. injection H as <-. eexists; reflexivity.
  - cbn [fst]. intros H. injection H as <-. apply Hn.
Qed.

Lemma request_raises_taxonomy self env method path options (w : World) t :
  fst (request self env method path options w) = Abrupt t ->
  exists e, t = ThrowSubformer e.
Proof. now apply request_call_raises_taxonomy. Qed.

Section Polling.
Variable self : Subformer.
Variable env : Env.
Variable jobId : string.

(** One turn of the loop on a job that was fetched. *)
Lemma poll_fetched fuel options pollInterval timeout startTime
    (w : World) job state :
  fetched_job env (length (fetches w)) = Some job ->
  job_state job = Some state ->
  poll self env (S fuel) jobId options pollInterval timeout startTime w
  = if terminal state then Some (Normal job, polled self jobId w)
    else if truthy_number timeout then
      if (now env (clock_reads w) - startTime
          >? match timeout with Some ms => ms | None => 0 end)%Z
      then Some (Abrupt (wait_timeout_error jobId options),
                 snd (Date_now env (polled self jobId w)))
      else poll self env fuel jobId options pollInterval timeout startTime
             (sleep pollInterval (snd (Date_now env (polled self jobId w))))
    else poll self env fuel jobId options pollInterval timeout startTime
           (sleep pollInterval (polled self jobId w)).
Proof.
  intros Hjob Hstate. cbn [poll].
  rewrite (getJob_fetched self env jobId w job Hjob).
  unfold job_state in Hstate.
  destruct (get_property job "state") as [state'|]; [|discriminate].
  injection Hstate as ->.
  destruct (terminal state); [reflexivity|].
  destruct timeout as [budget|]; [|reflexivity].
  destruct (truthy_number (Some budget)); reflexivity.
Qed.
End Polling.

(** After one more poll, the i-th fetch from there is the (i+1)-th from
    here; likewise for the clock readings. *)
Ltac one_poll_later :=
  simpl; rewrite ?length_app; simpl;
  repeat match goal with
         | |- context [?a + 1 + ?i] =>
             replace (a + 1 + i) with (a + S i) by lia
         | |- context [S (?a + ?i)] =>
             replace (S (a + i)) with (a + S i) by lia
         end.

Section PollingRuns.
Variable self : Subformer.
Variable env : Env.
Variable jobId : string.

Lemma fetch_job_calls_one (w : World) :
  fetch_job_calls self jobId w (polled self jobId w) 1.
Proof.
  eexists. split; [reflexivity|]. split; [reflexivity|].
  constructor; [|constructor]. split; reflexivity.
Qed.

Lemma fetch_job_calls_more (w w1 w' : World) n :
  fetches w1 = fetches (polled self jobId w) ->
  fetch_job_calls self jobId w1 w' n ->
  fetch_job_calls self jobId w w' (S n).
Proof.
  intros Hw1 [calls [Hcalls [Hlen Hall]]].
  rewrite Hw1 in Hcalls. simpl in Hcalls. rewrite <- app_assoc in Hcalls.
  eexists. split; [exact Hcalls|]. split; [simpl; now rewrite Hlen|].
  constructor; [split; reflexivity | exact Hall].
Qed.

(** A failed check of the budget ends the run after this one call. *)
Lemma fetch_job_calls_checked (w : World) :
  fetch_job_calls self jobId w (snd (Date_now env (polled self jobId w))) 1.
Proof.
  eapply fetch_job_calls_more
    with (w1 := snd (Date_now env (polled self jobId w))); [reflexivity|].
  exists []. split; [now rewrite app_nil_r|]. split; [reflexivity|constructor].
Qed.

(** The loop returns the job of the first terminal poll. *)
Lemma poll_returns options pollInterval timeout startTime job :
  forall n fuel (w : World),
    n < fuel ->
    (forall i, i < n -> still_running env (length (fetches w) + i)) ->
    finished_with env (length (fetches w) + n) job ->
    (truthy_number timeout = true ->
     forall i, i < n ->
       (now env (clock_reads w + i) - startTime
        <= match timeout with Some ms => ms | None => 0 end)%Z) ->
    exists w',
      poll self env fuel jobId options pollInterval timeout startTime w
      = Some (Normal job, w')
      /\ fetch_job_calls self jobId w w' (S n).
Proof.
  induction n as [|n IH]; intros fuel w Hfuel Hrunning Hdone Hquiet;
    (destruct fuel as [|fuel]; [lia|]).
  - rewrite Nat.add_0_r in Hdone.
    destruct Hdone as [state [Hjob [Hstate Hterminal]]].
    rewrite (poll_fetched self env jobId fuel options pollInterval timeout
               startTime w job state Hjob Hstate), Hterminal.
    eexists. split; [reflexivity | apply fetch_job_calls_one].
  - destruct (Hrunning 0) as [job0 [state0 [Hjob0 [Hstate0 Hterminal0]]]];
      [lia|].
    rewrite Nat.add_0_r in Hjob0.
    rewrite (poll_fetched self env jobId fuel options pollInterval timeout
               startTime w job0 state0 Hjob0 Hstate0), Hterminal0.
    destruct (truthy_number timeout) eqn:Htruthy.
    + specialize (Hquiet eq_refl).
      pose proof (Hquiet 0 ltac:(lia)) as Hfirst.
      rewrite Nat.add_0_r in Hfirst.
      apply Z.ltb_ge in Hfirst. rewrite <- Z.gtb_ltb in Hfirst.
      rewrite Hfirst.
      destruct (IH fuel
                  (sleep pollInterval (snd (Date_now env (polled self jobId w)))))
        as [w' [Hrun Hcalls]].
      * lia.
      * intros i Hi. one_poll_later. apply Hrunning. lia.
      * one_poll_later. exact Hdone.
      * intros _ i Hi. one_poll_later. apply Hquiet. lia.
      * exists w'. split; [exact Hrun|].
        eapply fetch_job_calls_more; [|exact Hcalls]. reflexivity.
    + destruct (IH fuel (sleep pollInterval (polled self jobId w)))
        as [w' [Hrun Hcalls]].
      * lia.
      * intros i Hi. one_poll_later. apply Hrunning. lia.
      * one_poll_later. exact Hdone.
      * discriminate.
      * exists w'. split; [exact Hrun|].
        eapply fetch_job_calls_more; [|exact Hcalls]. reflexivity.
Qed.

(** With a budget, the loop fails at the first poll after which the
    budget is found spent. *)
Lemma poll_times_out options pollInterval budget startTime :
  budget <> 0%Z ->
  forall n fuel (w : World),
    n < fuel ->
    (forall i, i <= n -> still_running env (length (fetches w) + i)) ->
    (now env (clock_reads w + n) - startTime > budget)%Z ->
    exists m w',
      m <= n
      /\ poll self env fuel jobId options pollInterval (Some budget) startTime w
         = Some (Abrupt (wait_timeout_error jobId options), w')
      /\ fetch_job_calls self jobId w w' (S m).
Proof.
  intros Hbudget.
  assert (Htruthy : truthy_number (Some budget) = true).
  { simpl. now apply negb_true_iff, Z.eqb_neq. }
  induction n as [|n IH]; intros fuel w Hfuel Hrunning Hspent;
    (destruct fuel as [|fuel]; [lia|]);
    (destruct (Hrunning 0) as [job0 [state0 [Hjob0 [Hstate0 Hterminal0]]]];
       [lia|]);
    rewrite Nat.add_0_r in Hjob0;
    rewrite (poll_fetched self env jobId fuel options pollInterval (Some budget)
               startTime w job0 state0 Hjob0 Hstate0), Hterminal0, Htruthy.
  - rewrite Nat.add_0_r in Hspent.
    apply Z.gt_lt, Z.ltb_lt in Hspent. rewrite <- Z.gtb_ltb in Hspent.
    rewrite Hspent.
    exists 0. eexists. split; [lia|]. split; [reflexivity|].
    apply fetch_job_calls_checked.
  - destruct (now env (clock_reads w) - startTime >? budget)%Z.
    + exists 0. eexists. split; [lia|]. split; [reflexivity|].
      apply fetch_job_calls_checked.
    + destruct (IH fuel
                  (sleep pollInterval (snd (Date_now env (polled self jobId w)))))
        as [m [w' [Hm [Hrun Hcalls]]]].
      * lia.
      * intros i Hi. one_poll_later. apply Hrunning. lia.
      * one_poll_later. exact Hspent.
      * exists (S m), w'. split; [lia|]. split; [exact Hrun|].
        eapply fetch_job_calls_more; [|exact Hcalls]. reflexivity.
Qed.



(** ... and keeps polling as long as the job keeps running. *)
Lemma poll_without_budget_runs options pollInterval startTime :
  forall fuel (w : World),
    (forall i, i < fuel -> still_running env (length (fetches w) + i)) ->
    poll self env fuel jobId options pollInterval None startTime w = None.
Proof.
  induction fuel as [|fuel IH]; intros w Hrunning; [reflexivity|].
  destruct (Hrunning 0) as [job0 [state0 [Hjob0 [Hstate0 Hterminal0]]]];
    [lia|].
  rewrite Nat.add_0_r in Hjob0.
  rewrite (poll_fetched self env jobId fuel options pollInterval None
             startTime w job0 state0 Hjob0 Hstate0), Hterminal0.
  cbn [truthy_number]. apply IH.
  intros i Hi. one_poll_later. apply Hrunning. lia.
Qed.

End PollingRuns.

(** ** waitForJob *)

Lemma append_associative (a b c : string) : (a ++ b) ++ c = a ++ b ++ c.
Proof. induction a as [|ch a IH]; simpl; [reflexivity | now rewrite IH]. Qed.

(** The budget [waitForJob] computes from its options. *)
Lemma waitForJob_budget (options : WaitForJobOptions) :
  (if truthy_number (wait_timeout options)
   then match wait_timeout options with
        | Some s => Some (s * 1000)%Z
        | None => None
        end
   else None)
  = budget options.
Proof.
  unfold budget, truthy_number.
  destruct (wait_timeout options) as [s|]; [|reflexivity].
  now destruct (s =? 0)%Z.
Qed.

(** C4: whatever the sequence of fetched jobs, [waitForJob] returns the
    job of the first poll whose state is terminal, exactly as [getJob]
    returned it, after exactly that many fetch-job calls (the budget, if
    any, not being found spent at an earlier poll). *)
Theorem waitForJob_returns_first_terminal
    self env jobId (options : WaitForJobOptions) (w : World) n job fuel :
  (forall i, i < n -> still_running env (length (fetches w) + i)) ->
  finished_with env (length (fetches w) + n) job ->
  (forall b i, budget options = Some b -> i < n ->
     (now env (S (clock_reads w) + i) - now env (clock_reads w) <= b)%Z) ->
  n < fuel ->
  exists w',
    waitForJob self env fuel jobId (Some options) w = Some (Normal job, w')
    /\ fetch_job_calls self jobId w w' (S n).
Proof.
  intros Hrunning Hdone Hquiet Hfuel.
  unfold waitForJob. rewrite waitForJob_budget. cbn [Date_now].
  apply (poll_returns self env jobId options _ (budget options)
           (now env (clock_reads w)) job n fuel
           (snd (Date_now env w)) Hfuel Hrunning Hdone).
  intros Htruthy i Hi. simpl.
  destruct (budget options) as [b|] eqn:Hb; [|discriminate].
  now apply (Hquiet b i).
Qed.

(** The example of the specification: queued, active, completed across
    three polls; the completed job comes back after exactly three
    fetch-job calls. *)
Lemma waitForJob_returns_first_terminal_witness :
  exists w',
    waitForJob Scenario.client Scenario.transitions 3 "j1"
      (Some default_WaitForJobOptions) initial_world
    = Some (Normal (transformDates (Scenario.job_in "completed")), w')
    /\ fetch_job_calls Scenario.client "j1" initial_world w' 3.
Proof.
  apply (waitForJob_returns_first_terminal Scenario.client Scenario.transitions
           "j1" default_WaitForJobOptions initial_world 2
           (transformDates (Scenario.job_in "completed")) 3).
  - intros [|[|i]] Hi; [| |lia];
      eexists; eexists; repeat split; reflexivity.
  - eexists; repeat split; reflexivity.
  - intros b i Hb. discriminate Hb.
  - lia.
Defined.

(** C5 (as amended): with a timeout of [seconds] seconds other than 0,
    when the job is still running at every poll up to one after which
    more than the budget has elapsed since the start, [waitForJob] fails
    with a plain [Error], outside the taxonomy, whose message holds the
    job id and the configured seconds, having made at least one
    fetch-job call. *)
Theorem waitForJob_times_out
    self env jobId pollInterval seconds (w : World) n fuel :
  seconds <> 0%Z ->
  (forall i, i <= n -> still_running env (length (fetches w) + i)) ->
  (now env (S (clock_reads w) + n) - now env (clock_reads w)
   > seconds * 1000)%Z ->
  n < fuel ->
  exists m w',
    m <= n
    /\ waitForJob self env fuel jobId
         (Some (mkWaitForJobOptions pollInterval (Some seconds))) w
       = Some (Abrupt
                 (ThrowNative "Error"
                    ("Job " ++ jobId ++ " did not complete within "
                     ++ Z_to_string seconds ++ " seconds")),
               w')
    /\ fetch_job_calls self jobId w w' (S m)
    /\ includes ("Job " ++ jobId ++ " did not complete within "
                 ++ Z_to_string seconds ++ " seconds") jobId
    /\ includes ("Job " ++ jobId ++ " did not complete within "
                 ++ Z_to_string seconds ++ " seconds") (Z_to_string seconds).
Proof.
  intros Hseconds Hrunning Hspent Hfuel.
  unfold waitForJob. rewrite waitForJob_budget. cbn [Date_now].
  unfold budget. cbn [wait_timeout wait_pollInterval].
  destruct (Z.eqb_spec seconds 0) as [|_]; [contradiction|].
  destruct (poll_times_out self env jobId
              (mkWaitForJobOptions pollInterval (Some seconds))
              ((match pollInterval with Some s => s | None => 2 end) * 1000)%Z
              (seconds * 1000)%Z (now env (clock_reads w))
              ltac:(lia) n fuel (snd (Date_now env w)) Hfuel Hrunning Hspent)
    as [m [w' [Hm [Hrun Hcalls]]]].
  exists m, w'. split; [exact Hm|]. split; [exact Hrun|].
  split; [exact Hcalls|]. split.
  - exists "Job ", (" did not complete within " ++ Z_to_string seconds
                    ++ " seconds"). reflexivity.
  - exists ("Job " ++ jobId ++ " did not complete within "), " seconds".
    now rewrite !append_associative.
Qed.

(** The example of the specification: a budget of five seconds and a
    job that stays queued. *)
Lemma waitForJob_times_out_witness :
  exists m w',
    m <= 2
    /\ waitForJob Scenario.client Scenario.never_finishes 3 "j1"
         (Some (mkWaitForJobOptions None (Some 5%Z))) initial_world
       = Some (Abrupt
                 (ThrowNative "Error" "Job j1 did not complete within 5 seconds"),
               w')
    /\ fetch_job_calls Scenario.client "j1" initial_world w' (S m)
    /\ includes "Job j1 did not complete within 5 seconds" "j1"
    /\ includes "Job j1 did not complete within 5 seconds" "5".
Proof.
  apply (waitForJob_times_out Scenario.client Scenario.never_finishes "j1"
           None 5%Z initial_world 2 3).
  - lia.
  - intros i Hi. eexists; eexists; repeat split; reflexivity.
  - reflexivity.
  - lia.
Defined.

(** C5, as stated, fails for a timeout of 0: the job stays queued, two
    seconds pass from one clock reading to the next, so the elapsed time
    exceeds the budget of zero, and yet no run of [waitForJob], however
    long, ends in a failure. *)
Lemma zero_timeout_never_fails :
  (now Scenario.never_finishes 1 - now Scenario.never_finishes 0 > 0 * 1000)%Z
  /\ ~ (exists fuel t w',
          waitForJob Scenario.client Scenario.never_finishes fuel "j1"
            (Some (mkWaitForJobOptions None (Some 0%Z))) initial_world
          = Some (Abrupt t, w')).
Proof.
  split; [reflexivity|].
  intros [fuel [t [w' Hrun]]].
  unfold waitForJob in Hrun.
  cbn [Date_now wait_timeout wait_pollInterval truthy_number Z.eqb negb] in Hrun.
  rewrite poll_without_budget_runs in Hrun; [discriminate|].
  intros i Hi. eexists; eexists; repeat split; reflexivity.
Qed.

(* ================================================================== *)
(** * Further properties *)
(* ================================================================== *)

Import Operations Behaviour.

(** ** The constructor *)

Lemma strip_trailing_slash_added (u : string) :
  strip_trailing_slash (u ++ "/") = u.
Proof.
  induction u as [|c u IH]; [reflexivity|].
  simpl. rewrite IH. destruct u; reflexivity.
Qed.

Lemma strip_trailing_slash_none (u : string) :
  ~ ends_in u "/" -> strip_trailing_slash u = u.
Proof.
  induction u as [|c u IH]; intros Hno; [reflexivity|].
  destruct u as [|d u].
  - simpl. destruct (Ascii.eqb_spec c "/") as [->|]; [|reflexivity].
    exfalso. apply Hno. now exists "".
  - change (strip_trailing_slash (String c (String d u)))
      with (String c (strip_trailing_slash (String d u))).
    rewrite IH; [reflexivity|].
    intros [before Hbefore]. apply Hno.
    exists (String c before). simpl. now rewrite Hbefore.
Qed.

(** X1: the constructor removes exactly one trailing slash from the base
    URL, so that a base written with or without it gives the same
    client; a base without trailing slash is kept as it is. *)
Theorem constructor_trailing_slash apiKey url timeout :
  baseUrl (constructor (mkSubformerOptions apiKey (Some (url ++ "/")) timeout))
  = url
  /\ (~ ends_in url "/" ->
      constructor (mkSubformerOptions apiKey (Some (url ++ "/")) timeout)
      = constructor (mkSubformerOptions apiKey (Some url) timeout)).
Proof.
  unfold constructor. simpl. rewrite strip_trailing_slash_added.
  split; [reflexivity|].
  intros Hno. now rewrite strip_trailing_slash_none.
Qed.

Lemma constructor_trailing_slash_witness :
  constructor (mkSubformerOptions "k" (Some ("http://localhost:3000" ++ "/")) None)
  = constructor (mkSubformerOptions "k" (Some "http://localhost:3000") None).
Proof.
  apply (constructor_trailing_slash "k" "http://localhost:3000" None).
  intros [before H]. vm_compute in H.
  repeat (destruct before as [|? before]; [discriminate|];
          injection H as _ H).
  destruct before; discriminate.
Defined.

(** ** What [request] raises *)

(** X3: a call that rejects before its timer fires is reported as a
    Generic error without status code, code or data: with the message of
    the rejection when that is an [Error], with "Unknown error" when it
    is not; a rejection named AbortError is reported as "Request
    timeout" although no timer fired.  The timer of the call is cleared
    and no call is cancelled. *)
Theorem request_wraps_rejection
    self env method path options (w : World) error :
  fetch_outcome env (length (fetches w)) = Rejected error ->
  (forall error_name text,
      error = ThrowNative error_name text ->
      error_name <> "AbortError" ->
      fst (request self env method path options w)
      = Abrupt (ThrowSubformer
                  (mkError Generic "SubformerError" text None None None)))
  /\ (forall text,
         error = ThrowNative "AbortError" text ->
         fst (request self env method path options w)
         = Abrupt (ThrowSubformer
                     (mkError Generic "SubformerError" "Request timeout"
                        None None None)))
  /\ (error = ThrowOther ->
      fst (request self env method path options w)
      = Abrupt (ThrowSubformer
                  (mkError Generic "SubformerError" "Unknown error"
                     None None None)))
  /\ timers (snd (request self env method path options w))
     = (timers w ++ [mkTimer (timeout self) Cleared])%list
  /\ aborted (snd (request self env method path options w)) = aborted w.
Proof.
  intros Houtcome. rewrite request_outcome, Houtcome. cbn [fst snd].
  repeat split.
  - intros error_name text -> Hname. simpl.
    apply String.eqb_neq in Hname. now rewrite Hname.
  - now intros text ->.
  - now intros ->.
Qed.

Lemma request_wraps_rejection_witness :
  fst (request Scenario.client
         (Scenario.always (Rejected (ThrowNative "TypeError" "fetch failed")))
         "GET" "/voices" None initial_world)
  = Abrupt (ThrowSubformer
              (mkError Generic "SubformerError" "fetch failed" None None None)).
Proof.
  apply (proj1 (request_wraps_rejection Scenario.client
                  (Scenario.always
                     (Rejected (ThrowNative "TypeError" "fetch failed")))
                  "GET" "/voices" None initial_world
                  (ThrowNative "TypeError" "fetch failed") eq_refl)
           "TypeError" "fetch failed" eq_refl).
  discriminate.
Defined.

(** X4: a successful response other than 204 whose body does not decode
    makes [request] fail, with a Generic error that carries the message
    of the decoding error and no status code. *)
Theorem request_undecodable_success
    self env method path options (w : World) (response : Response)
    error_name text :
  fetch_outcome env (length (fetches w)) = Responded response ->
  ok response = true ->
  status response <> 204%Z ->
  body response = Undecodable (ThrowNative error_name text) ->
  error_name <> "AbortError" ->
  fst (request self env method path options w)
  = Abrupt (ThrowSubformer
              (mkError Generic "SubformerError" text None None None)).
Proof.
  intros Houtcome Hok Hstatus Hbody Hname.
  rewrite request_outcome, Houtcome. cbn zeta. rewrite Hok, Hbody.
  apply Z.eqb_neq in Hstatus. rewrite Hstatus. simpl.
  apply String.eqb_neq in Hname. now rewrite Hname.
Qed.

Lemma request_undecodable_success_witness :
  fst (request Scenario.client
         (Scenario.always
            (Responded
               (mkResponse 200 "OK"
                  (Undecodable (ThrowNative "SyntaxError" "Unexpected token <")))))
         "GET" "/voices" None initial_world)
  = Abrupt (ThrowSubformer
              (mkError Generic "SubformerError" "Unexpected token <"
                 None None None)).
Proof.
  apply (request_undecodable_success Scenario.client
           (Scenario.always
              (Responded
                 (mkResponse 200 "OK"
                    (Undecodable (ThrowNative "SyntaxError" "Unexpected token <")))))
           "GET" "/voices" None initial_world
           (mkResponse 200 "OK"
              (Undecodable (ThrowNative "SyntaxError" "Unexpected token <")))
           "SyntaxError" "Unexpected token <");
    try reflexivity; discriminate.
Defined.

(** The message of every error [handleError] constructs is the text of
    the failure message. *)
Lemma classified_message (response : Response) text :
  ToString (failure_message response) = Some text ->
  exists e, classified response = ThrowSubformer e /\ message e = text.
Proof.
  intros Htext. unfold classified, new_error. rewrite Htext.
  destruct (taxonomy_row (status response)) as [[[] fixed]|];
    eexists; split; reflexivity.
Qed.

(** X5: the message of the error raised for a non-success response is
    the [message] of the body when that is a text, and the reason phrase
    of the response when the body does not decode, has no [message] or a
    [null] one; the default messages of the error classes are never
    used. *)
Theorem error_message_source
    self env method path options (w : World) (response : Response) :
  fetch_outcome env (length (fetches w)) = Responded response ->
  ok response = false ->
  (forall text,
      body_field response "message" = Some (JString text) ->
      exists e,
        fst (request self env method path options w)
        = Abrupt (ThrowSubformer e)
        /\ message e = text)
  /\ (body_field response "message" = None
      \/ body_field response "message" = Some JNull ->
      exists e,
        fst (request self env method path options w)
        = Abrupt (ThrowSubformer e)
        /\ message e = statusText response).
Proof.
  intros Houtcome Hok.
  rewrite request_outcome, Houtcome. cbn zeta. rewrite Hok. cbn [fst].
  split.
  - intros text Hmessage.
    destruct (classified_message response text) as [e [-> He]].
    + unfold failure_message. now rewrite Hmessage.
    + exists e. split; [reflexivity | exact He].
  - intros Hmessage.
    destruct (classified_message response (statusText response))
      as [e [-> He]].
    + unfold failure_message. now destruct Hmessage as [-> | ->].
    + exists e. split; [reflexivity | exact He].
Qed.

Lemma error_message_source_witness :
  exists e,
    fst (request Scenario.client
           (Scenario.always
              (Responded (mkResponse 401 "" (Decoded (JObject [])))))
           "GET" "/users/me" None initial_world)
    = Abrupt (ThrowSubformer e)
    /\ message e = "".
Proof.
  apply (proj2 (error_message_source Scenario.client
                  (Scenario.always
                     (Responded (mkResponse 401 "" (Decoded (JObject [])))))
                  "GET" "/users/me" None initial_world
                  (mkResponse 401 "" (Decoded (JObject [])))
                  eq_refl eq_refl)).
  left. reflexivity.
Defined.

(** ** What [request] does *)

(** X7: [request] cancels the call only when its timer fired: for every
    other outcome no call is cancelled and the timer is cleared. *)
Theorem request_cancels_only_on_timer
    self env method path options (w : World) :
  (forall abort_message,
      fetch_outcome env (length (fetches w)) <> TimerFired abort_message) ->
  aborted (snd (request self env method path options w)) = aborted w
  /\ timers (snd (request self env method path options w))
     = (timers w ++ [mkTimer (timeout self) Cleared])%list.
Proof.
  intros Hnot. rewrite request_outcome. cbv zeta.
  destruct (fetch_outcome env (length (fetches w))) as [response|msg|error];
    [destruct (ok response);
       [destruct (status response =? 204)%Z; [|destruct (body response)]|]
    | exfalso; now apply (Hnot msg) | ];
    split; reflexivity.
Qed.

Lemma request_cancels_only_on_timer_witness :
  aborted (snd (request Scenario.client
                  (Scenario.always
                     (Responded (mkResponse 404 "Not Found" (Decoded JNull))))
                  "GET" "/voices/v1" None initial_world))
  = []
  /\ timers (snd (request Scenario.client
                    (Scenario.always
                       (Responded (mkResponse 404 "Not Found" (Decoded JNull))))
                    "GET" "/voices/v1" None initial_world))
     = [mkTimer 30000 Cleared].
Proof.
  apply (request_cancels_only_on_timer Scenario.client
           (Scenario.always
              (Responded (mkResponse 404 "Not Found" (Decoded JNull))))
           "GET" "/voices/v1" None initial_world).
  intros abort_message. discriminate.
Defined.

(** ** Query parameters *)




(** ** Operations that unwrap an envelope *)

Lemma transformDates_missing_field fields key :
  distinct (keys fields) = true ->
  lookup "__proto__" fields = None ->
  lookup key fields = None ->
  js_get (transformDates (JObject fields)) key = VUndefined.
Proof.
  intros Hkeys Hproto Hlookup.
  rewrite transformDates_record by exact Hkeys.
  unfold installed_prototype. rewrite Hproto, copied_fields_all by exact Hproto.
  cbn [object_with js_get].
  rewrite (lookup_map (fun entry => converted (fst entry) (snd entry))).
  now rewrite Hlookup.
Qed.

(** A field that the record lacks and its prototype has. *)
Lemma transformDates_inherited_field fields inherited key value :
  distinct (keys fields) = true ->
  distinct (keys inherited) = true ->
  key <> "__proto__" ->
  lookup key fields = None ->
  lookup "__proto__" fields = Some (JObject inherited) ->
  lookup key inherited = Some value ->
  js_get (transformDates (JObject fields)) key
  = match date_field key value with
    | Some text => VDate text
    | None => transformDates value
    end.
Proof.
  intros Hkeys Hinner Hkey Hlookup Hproto Hvalue.
  rewrite transformDates_record by exact Hkeys.
  unfold installed_prototype. rewrite Hproto.
  pose proof (transformDates_is_record inherited) as Hrecord.
  assert (Hobject : is_object_or_null (transformDates (JObject inherited)) = true)
    by now destruct (transformDates (JObject inherited)).
  rewrite Hobject. cbn [object_with js_get].
  rewrite (lookup_map (fun entry => converted (fst entry) (snd entry))).
  rewrite lookup_copied_fields by exact Hkey. rewrite Hlookup.
  cbn [option_map].
  now apply transformDates_field.
Qed.

Lemma unwrap_nullish self env method path options key (w : World)
    (response : Response) :
  fetch_outcome env (length (fetches w)) = Responded response ->
  ok response = true ->
  (status response = 204%Z ->
   fst ((r <- request self env method path options ;;
         lift (get_property r key)) w)
   = Abrupt (TypeError_read "undefined" key))
  /\ (status response <> 204%Z ->
      body response = Decoded JNull ->
      fst ((r <- request self env method path options ;;
            lift (get_property r key)) w)
      = Abrupt (TypeError_read "null" key)).
Proof.
  intros Houtcome Hok.
  rewrite unwrap_outcome, request_outcome, Houtcome. cbv zeta. rewrite Hok.
  split.
  - intros ->. reflexivity.
  - intros Hstatus Hbody. apply Z.eqb_neq in Hstatus.
    now rewrite Hstatus, Hbody.
Qed.

(** X10: [deleteJobs] sends the ids as [{jobIds: [...]}] in the body of
    a DELETE to [/jobs]; [deleteJobs] and [deleteVoice] return the
    [success] flag of the response, and [undefined], not [false], when
    the response is a record without that flag and without a field named
    [__proto__]; when the record lacks the flag and the record in its
    [__proto__] field has it, they return that one. *)
Theorem delete_returns_success self env (w : World) (response : Response) fields :
  fetch_outcome env (length (fetches w)) = Responded response ->
  ok response = true ->
  status response <> 204%Z ->
  body response = Decoded (JObject fields) ->
  distinct (keys fields) = true ->
  (forall jobIds,
      exists call,
        fetches (snd (deleteJobs self env jobIds w)) = (fetches w ++ [call])%list
        /\ fc_method call = "DELETE"
        /\ fc_url call = baseUrl self ++ "/jobs"
        /\ fc_body call = Some (VObject [("jobIds", VArray (map VString jobIds))]))
  /\ (forall flag,
         lookup "success" fields = Some (JBool flag) ->
         (forall jobIds, fst (deleteJobs self env jobIds w) = Normal (VBool flag))
         /\ (forall voiceId,
                fst (deleteVoice self env voiceId w) = Normal (VBool flag)))
  /\ (lookup "success" fields = None ->
      lookup "__proto__" fields = None ->
      (forall jobIds, fst (deleteJobs self env jobIds w) = Normal VUndefined)
      /\ (forall voiceId,
             fst (deleteVoice self env voiceId w) = Normal VUndefined))
  /\ (forall inherited flag,
         lookup "success" fields = None ->
         lookup "__proto__" fields = Some (JObject inherited) ->
         distinct (keys inherited) = true ->
         lookup "success" inherited = Some (JBool flag) ->
         (forall jobIds, fst (deleteJobs self env jobIds w) = Normal (VBool flag))
         /\ (forall voiceId,
                fst (deleteVoice self env voiceId w) = Normal (VBool flag))).
Proof.
  intros Houtcome Hok Hstatus Hbody Hkeys.
  split; [|split; [|split]].
  - intros jobIds. unfold deleteJobs, Methods.deleteJobs, bind, lift.
    destruct (request_world self env "DELETE" "/jobs"
                (with_body (VObject [("jobIds", VArray (map VString jobIds))])) w)
      as [settled [decodes [_ Hworld]]].
    destruct (request self env "DELETE" "/jobs" _ w) as [[r|t] w'];
      simpl in *; subst w'; eexists; repeat split.
  - intros flag Hflag.
    pose proof (transformDates_field fields "success" (JBool flag) Hkeys
                  ltac:(discriminate) Hflag) as Hfield.
    split; intros x;
      unfold deleteJobs, deleteVoice, Methods.deleteJobs, Methods.deleteVoice;
      rewrite (unwrap_record _ _ _ _ _ _ _ response fields
                 Houtcome Hok Hstatus Hbody);
      now rewrite Hfield.
  - intros Hmissing Hproto.
    pose proof (transformDates_missing_field fields "success" Hkeys Hproto
                  Hmissing) as Hfield.
    split; intros x;
      unfold deleteJobs, deleteVoice, Methods.deleteJobs, Methods.deleteVoice;
      rewrite (unwrap_record _ _ _ _ _ _ _ response fields
                 Houtcome Hok Hstatus Hbody);
      now rewrite Hfield.
  - intros inherited flag Hmissing Hproto Hinner Hflag.
    pose proof (transformDates_inherited_field fields inherited "success"
                  (JBool flag) Hkeys Hinner ltac:(discriminate) Hmissing Hproto
                  Hflag) as Hfield.
    split; intros x;
      unfold deleteJobs, deleteVoice, Methods.deleteJobs, Methods.deleteVoice;
      rewrite (unwrap_record _ _ _ _ _ _ _ response fields
                 Houtcome Hok Hstatus Hbody);
      now rewrite Hfield.
Qed.

(** The flag of [{"__proto__": {"success": true}}], a record without a
    [success] field, reads [true]. *)
Example inherited_success_flag :
  lookup "success" [("__proto__", JObject [("success", JBool true)])] = None
  /\ fst (deleteJobs Scenario.client
            (Scenario.always
               (Cases.ok_with
                  (JObject [("__proto__", JObject [("success", JBool true)])])))
            ["a"] initial_world)
     = Normal (VBool true).
Proof. split; reflexivity. Qed.

Lemma delete_returns_success_witness :
  fst (deleteJobs Scenario.client
         (Scenario.always (Cases.ok_with (JObject [("success", JBool true)])))
         ["a"; "b"] initial_world)
  = Normal (VBool true).
Proof.
  apply (proj1 (proj1 (proj2 (delete_returns_success Scenario.client
           (Scenario.always (Cases.ok_with (JObject [("success", JBool true)])))
           initial_world
           (mkResponse 200 "OK" (Decoded (JObject [("success", JBool true)])))
           [("success", JBool true)]
           eq_refl eq_refl ltac:(discriminate) eq_refl eq_refl))
           true eq_refl)).
Defined.

(** X11: when the response to a job-creating or envelope-returning call
    is a 204 or the document [null], the operation does not fail with a
    member of the taxonomy: reading the field of the missing envelope
    throws a TypeError, which reaches the caller as it is.  So for [dub],
    [cloneVoice], [synthesizeVoice], [deleteJobs], [deleteVoice] and
    [updateMe]. *)
Theorem unwrapping_missing_envelope self env (w : World) (response : Response) :
  fetch_outcome env (length (fetches w)) = Responded response ->
  ok response = true ->
  status response = 204%Z
  \/ (status response <> 204%Z /\ body response = Decoded JNull) ->
  let what := if (status response =? 204)%Z then "undefined" else "null" in
  (forall options,
      fst (dub self env options w) = Abrupt (TypeError_read what "job"))
  /\ (forall options,
         fst (cloneVoice self env options w) = Abrupt (TypeError_read what "job"))
  /\ (forall options,
         fst (synthesizeVoice self env options w)
         = Abrupt (TypeError_read what "job"))
  /\ (forall jobIds,
         fst (deleteJobs self env jobIds w)
         = Abrupt (TypeError_read what "success"))
  /\ (forall voiceId,
         fst (deleteVoice self env voiceId w)
         = Abrupt (TypeError_read what "success"))
  /\ (forall options,
         fst (updateMe self env options w) = Abrupt (TypeError_read what "user"))
  /\ (forall key e, TypeError_read what key <> ThrowSubformer e).
Proof.
  intros Houtcome Hok Hcase. cbv zeta.
  assert (Hany : forall method path options key,
             fst ((r <- request self env method path options ;;
                   lift (get_property r key)) w)
             = Abrupt (TypeError_read
                         (if (status response =? 204)%Z
                          then "undefined" else "null") key)).
  { intros method path options key.
    destruct (unwrap_nullish self env method path options key w response
                Houtcome Hok) as [H204 Hnull].
    destruct Hcase as [Hstatus | [Hstatus Hbody]].
    - rewrite (H204 Hstatus), Hstatus. reflexivity.
    - rewrite (Hnull Hstatus Hbody).
      apply Z.eqb_neq in Hstatus. now rewrite Hstatus. }
  repeat split; try (intros x; apply Hany).
  intros key e. discriminate.
Qed.

Lemma unwrapping_missing_envelope_witness :
  fst (dub Scenario.client
         (Scenario.always (Responded (mkResponse 204 "No Content" (Decoded JNull))))
         (mkDubOptions Youtube "https://youtube.com/watch?v=VIDEO_ID" "es-ES" None)
         initial_world)
  = Abrupt (TypeError_read "undefined" "job").
Proof.
  apply (proj1 (unwrapping_missing_envelope Scenario.client
                  (Scenario.always
                     (Responded (mkResponse 204 "No Content" (Decoded JNull))))
                  initial_world
                  (mkResponse 204 "No Content" (Decoded JNull))
                  eq_refl eq_refl (or_introl eq_refl))).
Defined.

(** X12: [cloneVoice] and [synthesizeVoice] POST to [/voice/clone] and
    [/voice/synthesize]; the target voice they send is rebuilt from its
    mode, a preset voice as [{mode, presetVoiceId}] and an uploaded one
    as [{mode, targetAudioUrl}]; from a response envelope with a [job]
    field both return that job, as [request] normalized it. *)
Theorem voice_jobs self env (w : World) :
  (forall options,
      exists call,
        fetches (snd (cloneVoice self env options w)) = (fetches w ++ [call])%list
        /\ fc_method call = "POST"
        /\ fc_url call = baseUrl self ++ "/voice/clone"
        /\ fc_body call
           = Some (VObject
                     [("sourceAudioUrl", VString (clone_sourceAudioUrl options));
                      ("targetVoice",
                       match clone_targetVoice options with
                       | PresetVoice id =>
                           VObject [("mode", VString "preset");
                                    ("presetVoiceId", VString id)]
                       | UploadedVoice audio =>
                           VObject [("mode", VString "upload");
                                    ("targetAudioUrl", VString audio)]
                       end)]))
  /\ (forall options,
         exists call,
           fetches (snd (synthesizeVoice self env options w))
           = (fetches w ++ [call])%list
           /\ fc_method call = "POST"
           /\ fc_url call = baseUrl self ++ "/voice/synthesize"
           /\ fc_body call
              = Some (VObject
                        [("text", VString (synthesize_text options));
                         ("targetVoice",
                          match synthesize_targetVoice options with
                          | PresetVoice id =>
                              VObject [("mode", VString "preset");
                                       ("presetVoiceId", VString id)]
                          | UploadedVoice audio =>
                              VObject [("mode", VString "upload");
                                       ("targetAudioUrl", VString audio)]
                          end)]))
  /\ (forall (response : Response) fields job,
         fetch_outcome env (length (fetches w)) = Responded response ->
         ok response = true ->
         status response <> 204%Z ->
         body response = Decoded (JObject fields) ->
         distinct (keys fields) = true ->
         lookup "job" fields = Some job ->
         (forall options,
             fst (cloneVoice self env options w) = Normal (transformDates job))
         /\ (forall options,
                fst (synthesizeVoice self env options w)
                = Normal (transformDates job))).
Proof.
  split; [|split].
  - intros options. unfold cloneVoice, Methods.cloneVoice, bind, lift.
    destruct (request_world self env "POST" "/voice/clone"
                (with_body
                   (VObject
                      [("sourceAudioUrl", VString (clone_sourceAudioUrl options));
                       ("targetVoice",
                        targetVoice_body (clone_targetVoice options))])) w)
      as [settled [decodes [_ Hworld]]].
    destruct (request self env "POST" "/voice/clone" _ w) as [[r|t] w'];
      simpl in *; subst w'; eexists; repeat split;
      now destruct (clone_targetVoice options).
  - intros options. unfold synthesizeVoice, Methods.synthesizeVoice, bind, lift.
    destruct (request_world self env "POST" "/voice/synthesize"
                (with_body
                   (VObject
                      [("text", VString (synthesize_text options));
                       ("targetVoice",
                        targetVoice_body (synthesize_targetVoice options))])) w)
      as [settled [decodes [_ Hworld]]].
    destruct (request self env "POST" "/voice/synthesize" _ w) as [[r|t] w'];
      simpl in *; subst w'; eexists; repeat split;
      now destruct (synthesize_targetVoice options).
  - intros response fields job Houtcome Hok Hstatus Hbody Hkeys Hjob.
    pose proof (transformDates_field fields "job" job Hkeys
                  ltac:(discriminate) Hjob) as Hfield.
    assert (Hplain : date_field "job" job = None) by now destruct job.
    rewrite Hplain in Hfield.
    split; intros options;
      unfold cloneVoice, synthesizeVoice, Methods.cloneVoice,
        Methods.synthesizeVoice;
      rewrite (unwrap_record _ _ _ _ _ _ _ response fields
                 Houtcome Hok Hstatus Hbody);
      now rewrite Hfield.
Qed.

Lemma voice_jobs_witness :
  fst (cloneVoice Scenario.client
         (Scenario.always (Cases.ok_with Scenario.job_envelope))
         (mkCloneVoiceOptions "https://example.com/a.mp3" (PresetVoice "morgan"))
         initial_world)
  = Normal (transformDates Scenario.job_document).
Proof.
  apply (proj1 (proj2 (proj2 (voice_jobs Scenario.client
                  (Scenario.always (Cases.ok_with Scenario.job_envelope))
                  initial_world))
                  (mkResponse 200 "OK" (Decoded Scenario.job_envelope))
                  [("job", Scenario.job_document)] Scenario.job_document
                  eq_refl eq_refl ltac:(discriminate) eq_refl eq_refl eq_refl)).
Defined.

(** ** More on [waitForJob] *)

Section PollingOn.
Variable self : Subformer.
Variable env : Env.
Variable jobId : string.

Lemma pending_timers_polled (w : World) :
  pending_timers (polled self jobId w) = pending_timers w.
Proof. apply pending_timers_after_request. discriminate. Qed.

(** As long as the job is running and the budget is not found spent,
    the loop goes round: [n] polls on, it stands where it started, in a
    world with [n] more fetch-job calls and [n] more pauses. *)
Lemma poll_running options pollInterval timeout startTime :
  forall n fuel (w : World),
    (forall i, i < n -> still_running env (length (fetches w) + i)) ->
    (truthy_number timeout = true ->
     forall i, i < n ->
       (now env (clock_reads w + i) - startTime
        <= match timeout with Some ms => ms | None => 0 end)%Z) ->
    exists w_n,
      poll self env (n + fuel) jobId options pollInterval timeout startTime w
      = poll self env fuel jobId options pollInterval timeout startTime w_n
      /\ fetch_job_calls self jobId w w_n n
      /\ length (fetches w_n) = length (fetches w) + n
      /\ clock_reads w_n
         = clock_reads w + (if truthy_number timeout then n else 0)
      /\ sleeps w_n = (sleeps w ++ repeat pollInterval n)%list
      /\ pending_timers w_n = pending_timers w
      /\ length (timers w_n) = length (timers w) + n.
Proof.
  induction n as [|n IH]; intros fuel w Hrunning Hquiet.
  - exists w. split; [reflexivity|]. split.
    { exists []. split; [now rewrite app_nil_r|]. split; [reflexivity|constructor]. }
    rewrite !Nat.add_0_r, app_nil_r.
    repeat split; try reflexivity. now destruct (truthy_number timeout).
  - destruct (Hrunning 0) as [job0 [state0 [Hjob0 [Hstate0 Hterminal0]]]];
      [lia|].
    rewrite Nat.add_0_r in Hjob0.
    change (S n + fuel) with (S (n + fuel)).
    rewrite (poll_fetched self env jobId (n + fuel) options pollInterval timeout
               startTime w job0 state0 Hjob0 Hstate0), Hterminal0.
    destruct (truthy_number timeout) eqn:Htruthy.
    + specialize (Hquiet eq_refl).
      pose proof (Hquiet 0 ltac:(lia)) as Hfirst.
      rewrite Nat.add_0_r in Hfirst.
      apply Z.ltb_ge in Hfirst. rewrite <- Z.gtb_ltb in Hfirst.
      rewrite Hfirst.
      destruct (IH fuel
                  (sleep pollInterval (snd (Date_now env (polled self jobId w)))))
        as [w_n [Hrun [Hcalls [Hfetches [Hclock [Hsleeps [Hpending Htimers]]]]]]].
      * intros i Hi. one_poll_later. apply Hrunning. lia.
      * intros _ i Hi. one_poll_later. apply Hquiet. lia.
      * exists w_n. split; [exact Hrun|]. split.
        { eapply fetch_job_calls_more; [|exact Hcalls]. reflexivity. }
        rewrite Hfetches, Hclock, Hsleeps, Hpending, Htimers.
        cbn [sleep Date_now polled after_request snd fetches clock_reads
             sleeps timers].
        rewrite !length_app, <- app_assoc. cbn [length app repeat].
        repeat split; try lia.
        apply pending_timers_polled.
    + destruct (IH fuel (sleep pollInterval (polled self jobId w)))
        as [w_n [Hrun [Hcalls [Hfetches [Hclock [Hsleeps [Hpending Htimers]]]]]]].
      * intros i Hi. one_poll_later. apply Hrunning. lia.
      * discriminate.
      * exists w_n. split; [exact Hrun|]. split.
        { eapply fetch_job_calls_more; [|exact Hcalls]. reflexivity. }
        rewrite Hfetches, Hclock, Hsleeps, Hpending, Htimers.
        cbn [sleep polled after_request snd fetches clock_reads sleeps timers].
        rewrite !length_app, <- app_assoc. cbn [length app repeat].
        repeat split; try lia.
        apply pending_timers_polled.
Qed.

End PollingOn.

(** The first step of [waitForJob]: the clock is read, the loop starts. *)
Ltac start_waiting :=
  unfold waitForJob; rewrite waitForJob_budget;
  match goal with
  | |- context [Date_now ?e ?w] =>
      change (Date_now e w) with (now e (clock_reads w), snd (Date_now e w))
  end;
  cbv beta iota zeta.

Section WaitingOn.
Variable self : Subformer.
Variable env : Env.
Variable jobId : string.

(** A fetch-job call that fails. *)
Lemma getJob_failed (w : World) t :
  fetch_failure env (length (fetches w)) = Some t ->
  exists settled decodes,
    getJob self env jobId w
    = (Abrupt t,
       after_request self w
         (fetch_arguments self "GET" ("/jobs/" ++ jobId) None (length (timers w)))
         settled decodes).
Proof.
  unfold fetch_failure, getJob. rewrite request_outcome. cbv zeta.
  destruct (fetch_outcome env (length (fetches w))) as [response|msg|error].
  - destruct (ok response);
      [destruct (status response =? 204)%Z;
         [discriminate | destruct (body response); [discriminate|]]|];
      intros H; injection H as <-; eexists; eexists; reflexivity.
  - intros H; injection H as <-; eexists; eexists; reflexivity.
  - intros H; injection H as <-; eexists; eexists; reflexivity.
Qed.

(** A fetch-job call answered by a 204 or by the document [null]. *)
Lemma getJob_nullish (w : World) (response : Response) :
  fetch_outcome env (length (fetches w)) = Responded response ->
  ok response = true ->
  status response = 204%Z
  \/ (status response <> 204%Z /\ body response = Decoded JNull) ->
  exists decodes,
    getJob self env jobId w
    = (Normal (if (status response =? 204)%Z then VUndefined else VNull),
       after_request self w
         (fetch_arguments self "GET" ("/jobs/" ++ jobId) None (length (timers w)))
         Cleared decodes).
Proof.
  intros Houtcome Hok Hcase. unfold getJob.
  rewrite request_outcome, Houtcome. cbv zeta. rewrite Hok.
  destruct Hcase as [Hstatus | [Hstatus Hbody]].
  - rewrite Hstatus. eexists; reflexivity.
  - apply Z.eqb_neq in Hstatus. rewrite Hstatus, Hbody. eexists; reflexivity.
Qed.

Lemma fetch_job_calls_last (w w_n : World) n call settled decodes :
  fetch_job_calls self jobId w w_n n ->
  call = fetch_arguments self "GET" ("/jobs/" ++ jobId) None (length (timers w_n)) ->
  fetch_job_calls self jobId w
    (after_request self w_n call settled decodes) (S n).
Proof.
  intros [calls [Hcalls [Hlen Hall]]] ->.
  exists (calls ++ [fetch_arguments self "GET" ("/jobs/" ++ jobId) None
                      (length (timers w_n))])%list.
  simpl. rewrite Hcalls, <- app_assoc. split; [reflexivity|]. split.
  - rewrite length_app. simpl. lia.
  - apply Forall_app. split; [exact Hall|].
    constructor; [split; reflexivity | constructor].
Qed.

(** The budget of the options, as the loop tests it. *)
Lemma budget_quiet (options : WaitForJobOptions) (w : World) n :
  (forall b i, budget options = Some b -> i < n ->
     (now env (S (clock_reads w) + i) - now env (clock_reads w) <= b)%Z) ->
  truthy_number (budget options) = true ->
  forall i, i < n ->
    (now env (clock_reads (snd (Date_now env w)) + i) - now env (clock_reads w)
     <= match budget options with Some ms => ms | None => 0 end)%Z.
Proof.
  intros Hquiet Htruthy i Hi. simpl.
  destruct (budget options) as [b|] eqn:Hb; [|discriminate].
  now apply (Hquiet b i).
Qed.

(** X13: [waitForJob] does not retry: when a fetch-job call fails, after
    any number of polls that found the job running, the failure of that
    call, a member of the taxonomy, is raised at once, after exactly
    that many calls plus one. *)
Theorem waitForJob_propagates_failure
    (options : WaitForJobOptions) (w : World) n t fuel :
  (forall i, i < n -> still_running env (length (fetches w) + i)) ->
  fetch_failure env (length (fetches w) + n) = Some t ->
  (forall b i, budget options = Some b -> i < n ->
     (now env (S (clock_reads w) + i) - now env (clock_reads w) <= b)%Z) ->
  n < fuel ->
  exists w',
    waitForJob self env fuel jobId (Some options) w = Some (Abrupt t, w')
    /\ fetch_job_calls self jobId w w' (S n)
    /\ exists e, t = ThrowSubformer e.
Proof.
  intros Hrunning Hfailure Hquiet Hfuel.
  start_waiting.
  replace fuel with (n + S (fuel - n - 1)) by lia.
  destruct (poll_running self env jobId options
              ((match wait_pollInterval options with Some s => s | None => 2 end)
               * 1000)%Z
              (budget options) (now env (clock_reads w)) n (S (fuel - n - 1))
              (snd (Date_now env w)) Hrunning
              (budget_quiet options w n Hquiet))
    as [w_n [-> [Hcalls [Hfetches _]]]].
  simpl in Hfetches. rewrite <- Hfetches in Hfailure.
  destruct (getJob_failed w_n t Hfailure) as [settled [decodes Hget]].
  cbn [poll]. rewrite Hget.
  eexists. split; [reflexivity|]. split.
  - now apply fetch_job_calls_last.
  - apply (request_raises_taxonomy self env "GET" ("/jobs/" ++ jobId) None w_n).
    unfold getJob in Hget. now rewrite Hget.
Qed.

(** X14: between two polls [waitForJob] pauses for the poll interval,
    two seconds unless the options say otherwise (an interval of 0 is
    kept), and it does not pause after the poll that ends the wait; the
    clock is read once at the start and, only when a budget is in
    force, once more after every poll that found the job running. *)
Theorem waitForJob_pauses
    (options : WaitForJobOptions) (w : World) n job fuel :
  (forall i, i < n -> still_running env (length (fetches w) + i)) ->
  finished_with env (length (fetches w) + n) job ->
  (forall b i, budget options = Some b -> i < n ->
     (now env (S (clock_reads w) + i) - now env (clock_reads w) <= b)%Z) ->
  n < fuel ->
  exists w',
    waitForJob self env fuel jobId (Some options) w = Some (Normal job, w')
    /\ sleeps w' = (sleeps w ++ repeat (interval_ms options) n)%list
    /\ clock_reads w'
       = S (clock_reads w)
         + match budget options with Some _ => n | None => 0 end.
Proof.
  intros Hrunning Hdone Hquiet Hfuel.
  start_waiting.
  replace fuel with (n + S (fuel - n - 1)) by lia.
  destruct (poll_running self env jobId options
              ((match wait_pollInterval options with Some s => s | None => 2 end)
               * 1000)%Z
              (budget options) (now env (clock_reads w)) n (S (fuel - n - 1))
              (snd (Date_now env w)) Hrunning
              (budget_quiet options w n Hquiet))
    as [w_n [-> [_ [Hfetches [Hclock [Hsleeps _]]]]]].
  simpl in Hfetches, Hclock, Hsleeps. rewrite <- Hfetches in Hdone.
  destruct Hdone as [state [Hjob [Hstate Hterminal]]].
  rewrite (poll_fetched self env jobId _ options _ (budget options) _ w_n
             job state Hjob Hstate), Hterminal.
  eexists. split; [reflexivity|].
  cbn [polled after_request sleeps clock_reads]. rewrite Hsleeps, Hclock.
  split; [reflexivity|].
  unfold budget, truthy_number.
  destruct (wait_timeout options) as [s|]; [|reflexivity].
  destruct (Z.eqb_spec s 0) as [->|Hs]; [reflexivity|].
  destruct (Z.eqb_spec (s * 1000) 0); [lia | reflexivity].
Qed.

(** X15: with a budget in force [waitForJob] fails exactly at the first
    poll after which the elapsed time is strictly greater than the
    budget: an elapsed time equal to the budget does not end the wait.
    It has then made exactly that many fetch-job calls and paused
    between them. *)
Theorem waitForJob_times_out_exactly
    pollInterval seconds (w : World) n fuel :
  seconds <> 0%Z ->
  (forall i, i <= n -> still_running env (length (fetches w) + i)) ->
  (forall i, i < n ->
     (now env (S (clock_reads w) + i) - now env (clock_reads w)
      <= seconds * 1000)%Z) ->
  (now env (S (clock_reads w) + n) - now env (clock_reads w)
   > seconds * 1000)%Z ->
  n < fuel ->
  exists w',
    waitForJob self env fuel jobId
      (Some (mkWaitForJobOptions pollInterval (Some seconds))) w
    = Some (Abrupt
              (wait_timeout_error jobId
                 (mkWaitForJobOptions pollInterval (Some seconds))),
            w')
    /\ fetch_job_calls self jobId w w' (S n)
    /\ sleeps w'
       = (sleeps w
          ++ repeat (interval_ms (mkWaitForJobOptions pollInterval (Some seconds)))
                    n)%list.
Proof.
  intros Hseconds Hrunning Hquiet Hspent Hfuel.
  start_waiting.
  unfold budget. cbn [wait_timeout wait_pollInterval].
  destruct (Z.eqb_spec seconds 0) as [|_]; [contradiction|].
  assert (Htruthy : truthy_number (Some (seconds * 1000)%Z) = true).
  { simpl. apply negb_true_iff, Z.eqb_neq. lia. }
  replace fuel with (n + S (fuel - n - 1)) by lia.
  destruct (poll_running self env jobId
              (mkWaitForJobOptions pollInterval (Some seconds))
              ((match pollInterval with Some s => s | None => 2 end) * 1000)%Z
              (Some (seconds * 1000)%Z) (now env (clock_reads w)) n
              (S (fuel - n - 1)) (snd (Date_now env w)))
    as [w_n [-> [Hcalls [Hfetches [Hclock [Hsleeps _]]]]]].
  - intros i Hi. apply Hrunning. lia.
  - intros _ i Hi. simpl. now apply Hquiet.
  - rewrite Htruthy in Hclock. simpl in Hfetches, Hclock, Hsleeps.
    destruct (Hrunning n) as [job [state [Hjob [Hstate Hterminal]]]]; [lia|].
    rewrite <- Hfetches in Hjob.
    rewrite (poll_fetched self env jobId _ _ _ (Some (seconds * 1000)%Z) _ w_n
               job state Hjob Hstate), Hterminal, Htruthy, Hclock.
    apply Z.gt_lt, Z.ltb_lt in Hspent. rewrite <- Z.gtb_ltb in Hspent.
    cbn [Nat.add] in Hspent |- *. rewrite Hspent.
    eexists. split; [reflexivity|]. split.
    + destruct (fetch_job_calls_checked self env jobId w_n)
        as [calls [Hlast [Hlen Hall]]].
      destruct Hcalls as [before [Hbefore [Hn Hgets]]].
      exists (before ++ calls)%list.
      rewrite Hlast, Hbefore, <- app_assoc. split; [reflexivity|]. split.
      * rewrite length_app. lia.
      * apply Forall_app. now split.
    + cbn [Date_now polled after_request sleeps snd]. exact Hsleeps.
Qed.

(** X16: a fetch-job call answered by a 204, or by the document [null],
    ends the wait with the TypeError of reading the state of a missing
    job; that error is not a member of the taxonomy. *)
Theorem waitForJob_missing_job
    (options : WaitForJobOptions) (w : World) n (response : Response) fuel :
  (forall i, i < n -> still_running env (length (fetches w) + i)) ->
  fetch_outcome env (length (fetches w) + n) = Responded response ->
  ok response = true ->
  status response = 204%Z
  \/ (status response <> 204%Z /\ body response = Decoded JNull) ->
  (forall b i, budget options = Some b -> i < n ->
     (now env (S (clock_reads w) + i) - now env (clock_reads w) <= b)%Z) ->
  n < fuel ->
  exists w',
    waitForJob self env fuel jobId (Some options) w
    = Some (Abrupt
              (TypeError_read
                 (if (status response =? 204)%Z then "undefined" else "null")
                 "state"),
            w')
    /\ fetch_job_calls self jobId w w' (S n).
Proof.
  intros Hrunning Houtcome Hok Hcase Hquiet Hfuel.
  start_waiting.
  replace fuel with (n + S (fuel - n - 1)) by lia.
  destruct (poll_running self env jobId options
              ((match wait_pollInterval options with Some s => s | None => 2 end)
               * 1000)%Z
              (budget options) (now env (clock_reads w)) n (S (fuel - n - 1))
              (snd (Date_now env w)) Hrunning
              (budget_quiet options w n Hquiet))
    as [w_n [-> [Hcalls [Hfetches _]]]].
  simpl in Hfetches. rewrite <- Hfetches in Houtcome.
  destruct (getJob_nullish w_n response Houtcome Hok Hcase) as [decodes Hget].
  cbn [poll]. rewrite Hget.
  destruct (status response =? 204)%Z; cbn [get_property];
    (eexists; split; [reflexivity | now apply fetch_job_calls_last]).
Qed.

(** Whatever a run of the loop does, it leaves no timer pending and
    creates one timer for each call. *)
Lemma poll_timers options pollInterval timeout startTime :
  forall fuel (w w' : World) result,
    poll self env fuel jobId options pollInterval timeout startTime w
    = Some (result, w') ->
    pending_timers w' = pending_timers w
    /\ length (timers w') + length (fetches w)
       = length (timers w) + length (fetches w').
Proof.
  induction fuel as [|fuel IH]; intros w w' result; [discriminate|].
  cbn [poll].
  destruct (request_world self env "GET" ("/jobs/" ++ jobId) None w)
    as [settled [decodes [Hsettled Hworld]]].
  fold (getJob self env jobId w) in Hworld.
  set (call := fetch_arguments self "GET" ("/jobs/" ++ jobId) None
                 (length (timers w))) in *.
  assert (Hbase :
            pending_timers (after_request self w call settled decodes)
            = pending_timers w
            /\ length (timers (after_request self w call settled decodes))
               + length (fetches w)
               = length (timers w)
                 + length (fetches (after_request self w call settled decodes))).
  { split; [now apply pending_timers_after_request|].
    simpl. rewrite !length_app. simpl. lia. }
  destruct (getJob self env jobId w) as [[job|t] w1]; simpl in Hworld; subst w1;
    [|intros H; injection H as _ <-; exact Hbase].
  set (w1 := after_request self w call settled decodes) in *.
  assert (Hnext : forall w2,
             timers w2 = timers w1 -> fetches w2 = fetches w1 ->
             poll self env fuel jobId options pollInterval timeout startTime w2
             = Some (result, w') ->
             pending_timers w' = pending_timers w
             /\ length (timers w') + length (fetches w)
                = length (timers w) + length (fetches w')).
  { intros w2 Htimers Hfetches Hrun.
    apply IH in Hrun as [Hpending Hlengths].
    destruct Hbase as [Hp Hl]. unfold pending_timers in *.
    rewrite Htimers in Hpending, Hlengths. rewrite Hfetches in Hlengths.
    split; [now rewrite Hpending | lia]. }
  destruct (get_property job "state") as [state|t];
    [|intros H; injection H as _ <-; exact Hbase].
  destruct (terminal state); [intros H; injection H as _ <-; exact Hbase|].
  destruct timeout as [b|]; [|now apply Hnext].
  destruct (truthy_number (Some b)); [|now apply Hnext].
  cbn [Date_now].
  destruct (now env (clock_reads w1) - startTime >? b)%Z;
    [|now apply Hnext].
  intros H. injection H as _ <-. exact Hbase.
Qed.

(** X17: however a wait ends, with a job, with a failure of a call, with
    the timed-out failure or with a TypeError, [waitForJob] leaves no
    timer pending that was not pending before, and it has created
    exactly one timer for each call it made. *)
Theorem waitForJob_timers fuel (options : option WaitForJobOptions)
    (w w' : World) result :
  waitForJob self env fuel jobId options w = Some (result, w') ->
  pending_timers w' = pending_timers w
  /\ length (timers w') - length (timers w)
     = length (fetches w') - length (fetches w).
Proof.
  unfold waitForJob. cbn [Date_now]. intros Hrun.
  apply poll_timers in Hrun as [Hpending Hlengths].
  split; [exact Hpending|]. simpl in Hlengths. lia.
Qed.


End WaitingOn.


Lemma waitForJob_propagates_failure_witness :
  exists w',
    waitForJob Scenario.client Cases.lost_after_one_poll 2 "j1"
      (Some default_WaitForJobOptions) initial_world
    = Some (Abrupt (ThrowSubformer (NotFoundError (Some "Job not found"))), w')
    /\ fetch_job_calls Scenario.client "j1" initial_world w' 2
    /\ exists e, ThrowSubformer (NotFoundError (Some "Job not found"))
                 = ThrowSubformer e.
Proof.
  apply (waitForJob_propagates_failure Scenario.client Cases.lost_after_one_poll
           "j1" default_WaitForJobOptions initial_world 1
           (ThrowSubformer (NotFoundError (Some "Job not found"))) 2).
  - intros [|i] Hi; [|lia]. eexists; eexists; repeat split; reflexivity.
  - reflexivity.
  - intros b i Hb. discriminate Hb.
  - lia.
Defined.

Lemma waitForJob_pauses_witness :
  exists w',
    waitForJob Scenario.client Scenario.transitions 3 "j1"
      (Some default_WaitForJobOptions) initial_world
    = Some (Normal (transformDates (Scenario.job_in "completed")), w')
    /\ sleeps w' = [2000; 2000]%Z
    /\ clock_reads w' = 1.
Proof.
  apply (waitForJob_pauses Scenario.client Scenario.transitions "j1"
           default_WaitForJobOptions initial_world 2
           (transformDates (Scenario.job_in "completed")) 3).
  - intros [|[|i]] Hi; [| |lia];
      eexists; eexists; repeat split; reflexivity.
  - eexists; repeat split; reflexivity.
  - intros b i Hb. discriminate Hb.
  - lia.
Defined.

(** A budget of four seconds and a clock that advances by two: the
    check at four seconds passes, the one at six fails. *)
Lemma waitForJob_times_out_exactly_witness :
  exists w',
    waitForJob Scenario.client Scenario.never_finishes 3 "j1"
      (Some (mkWaitForJobOptions None (Some 4%Z))) initial_world
    = Some (Abrupt
              (ThrowNative "Error" "Job j1 did not complete within 4 seconds"),
            w')
    /\ fetch_job_calls Scenario.client "j1" initial_world w' 3
    /\ sleeps w' = [2000; 2000]%Z.
Proof.
  apply (waitForJob_times_out_exactly Scenario.client Scenario.never_finishes
           "j1" None 4%Z initial_world 2 3).
  - lia.
  - intros i Hi. eexists; eexists; repeat split; reflexivity.
  - intros [|[|i]] Hi; [| |lia]; simpl; lia.
  - reflexivity.
  - lia.
Defined.

Lemma waitForJob_missing_job_witness :
  exists w',
    waitForJob Scenario.client Cases.no_content 1 "j1"
      (Some default_WaitForJobOptions) initial_world
    = Some (Abrupt (TypeError_read "undefined" "state"), w')
    /\ fetch_job_calls Scenario.client "j1" initial_world w' 1.
Proof.
  apply (waitForJob_missing_job Scenario.client Cases.no_content "j1"
           default_WaitForJobOptions initial_world 0
           (mkResponse 204 "No Content" (Decoded JNull)) 1).
  - intros i Hi. lia.
  - reflexivity.
  - reflexivity.
  - left. reflexivity.
  - intros b i Hb. discriminate Hb.
  - lia.
Defined.

Lemma waitForJob_timers_witness :
  exists result w',
    Cases.three_polls = Some (result, w')
    /\ pending_timers w' = pending_timers initial_world
    /\ length (timers w') - length (timers initial_world)
       = length (fetches w') - length (fetches initial_world).
Proof.
  eexists. eexists. split; [vm_compute; reflexivity|].
  eapply (waitForJob_timers Scenario.client Scenario.transitions "j1" 3 None
            initial_world).
  vm_compute. reflexivity.
Defined.

(** ** More on the date walk *)

(** X19: the fields [periodStart] and [periodEnd] of a usage record,
    which the type declarations give as dates, are not converted: their
    names end neither in "At" nor in "On", and their values come back as
    the texts the server sent. *)
Theorem usage_periods_stay_texts fields :
  distinct (keys fields) = true ->
  (forall text,
      lookup "periodStart" fields = Some (JString text) ->
      js_get (transformDates (JObject fields)) "periodStart" = VString text)
  /\ (forall text,
         lookup "periodEnd" fields = Some (JString text) ->
         js_get (transformDates (JObject fields)) "periodEnd" = VString text).
Proof.
  intros Hkeys.
  split; intros text Hlookup;
    (rewrite (transformDates_field fields _ (JString text) Hkeys);
     [reflexivity | discriminate | exact Hlookup]).
Qed.

Lemma usage_periods_stay_texts_witness :
  js_get (transformDates (JObject Cases.usage_data)) "periodStart"
  = VString "2024-05-01T00:00:00.000Z".
Proof.
  apply (proj1 (usage_periods_stay_texts Cases.usage_data eq_refl)).
  reflexivity.
Defined.

(** X20: a date text is converted only as the direct value of a field:
    a text that is an element of an array is never converted, wherever
    the array stands and whatever the name of the field that holds it
    (a field named [__proto__] apart, which is not copied at all). *)
Theorem texts_in_arrays_stay_texts (items : list Json) i text :
  nth_error items i = Some (JString text) ->
  exists items',
    transformDates (JArray items) = VArray items'
    /\ nth_error items' i = Some (VString text)
    /\ forall key,
         key <> "__proto__" ->
         transformDates (JObject [(key, JArray items)])
         = VObject [(key, VArray items')].
Proof.
  intros Hitem. eexists. split; [reflexivity|]. split.
  - rewrite nth_error_map, Hitem. reflexivity.
  - intros key Hkey. rewrite transformDates_loop. cbn [fold_left fst snd].
    now rewrite assign_own by exact Hkey.
Qed.

(** An array in a field named [__proto__] becomes the prototype of the
    result, its texts unconverted. *)
Example array_in_proto_field :
  transformDates (JObject [("__proto__", JArray [JString "2024-05-01T10:00:00Z"])])
  = VObjectWith (VArray [VString "2024-05-01T10:00:00Z"]) [].
Proof. reflexivity. Qed.

Lemma texts_in_arrays_stay_texts_witness :
  exists items',
    transformDates (JArray [JString "2024-05-01T10:00:00Z"]) = VArray items'
    /\ nth_error items' 0 = Some (VString "2024-05-01T10:00:00Z")
    /\ forall key,
         key <> "__proto__" ->
         transformDates (JObject [(key, JArray [JString "2024-05-01T10:00:00Z"])])
         = VObject [(key, VArray items')].
Proof.
  apply (texts_in_arrays_stay_texts [JString "2024-05-01T10:00:00Z"] 0
           "2024-05-01T10:00:00Z").
  reflexivity.
Defined.

(** X21: [transformDates] neither adds nor reorders, and drops one
    field only: the own properties of the result for a record are named
    as the fields of the record other than [__proto__], in the same
    order; so the result for a record without a field named [__proto__]
    is an object literal with the names of the record.  The result for
    an array is an array of the same length. *)
Theorem transformDates_shape :
  (forall fields,
      distinct (keys fields) = true ->
      is_record (transformDates (JObject fields)) = true
      /\ keys (fields_of (transformDates (JObject fields)))
         = keys (copied_fields fields)
      /\ (lookup "__proto__" fields = None ->
          exists fields',
            transformDates (JObject fields) = VObject fields'
            /\ keys fields' = keys fields))
  /\ (forall items,
         exists items',
           transformDates (JArray items) = VArray items'
           /\ length items' = length items).
Proof.
  split.
  - intros fields Hkeys. split; [apply transformDates_is_record|].
    rewrite transformDates_record by exact Hkeys. split.
    + destruct (installed_prototype fields); cbn [object_with fields_of];
        unfold keys; now rewrite map_map.
    + intros Hproto. unfold installed_prototype.
      rewrite Hproto, copied_fields_all by exact Hproto.
      eexists. split; [reflexivity|].
      unfold keys. now rewrite map_map.
  - intros items. eexists. split; [reflexivity|]. apply length_map.
Qed.

Lemma transformDates_shape_witness :
  keys (fields_of (transformDates Scenario.proto_text_document))
  = ["id"; "state"]
  /\ exists fields',
       transformDates Scenario.job_document = VObject fields'
       /\ keys fields'
          = ["id"; "state"; "createdAt"; "finishedOn"; "startedAt"; "title";
             "progress"; "metadata"; "steps"].
Proof.
  split.
  - apply (proj1 (proj2 (proj1 transformDates_shape
                           [("id", JString "j1");
                            ("__proto__", JString "x");
                            ("state", JString "queued")]
                           eq_refl))).
  - apply (proj2 (proj2 (proj1 transformDates_shape
                           match Scenario.job_document with
                           | JObject fields => fields
                           | _ => []
                           end
                           eq_refl))
             eq_refl).
Defined.

(** X22: the test of the date prefix looks at the first eleven
    characters only: a shorter text never passes, and what follows the
    "T" is not examined. *)
Theorem iso_date_prefix_local (text : string) :
  (String.length text < 11 -> iso_date_prefix text = false)
  /\ (11 <= String.length text ->
      forall rest, iso_date_prefix (text ++ rest) = iso_date_prefix text).
Proof.
  split.
  - intros Hshort.
    do 11 (destruct text as [|? text]; [reflexivity|]).
    simpl in Hshort. lia.
  - intros Hlong rest.
    do 11 (destruct text as [|? text]; [simpl in Hlong; lia|]).
    reflexivity.
Qed.

Lemma iso_date_prefix_local_witness :
  iso_date_prefix ("2024-13-45T" ++ "not a time")
  = iso_date_prefix "2024-13-45T".
Proof.
  apply (proj2 (iso_date_prefix_local "2024-13-45T")). simpl. lia.
Defined.

Lemma substring_whole (s : string) : substring 0 (String.length s) s = s.
Proof. induction s as [|c s IH]; simpl; [reflexivity | now rewrite IH]. Qed.

Lemma substring_after (before s : string) m :
  substring (String.length before) m (before ++ s) = substring 0 m s.
Proof. induction before as [|c before IH]; simpl; [reflexivity | exact IH]. Qed.

Lemma length_append (a b : string) :
  String.length (a ++ b) = String.length a + String.length b.
Proof. induction a as [|c a IH]; simpl; [reflexivity | now rewrite IH]. Qed.

Lemma substring_split (s : string) k :
  k <= String.length s ->
  s = substring 0 k s ++ substring k (String.length s - k) s.
Proof.
  revert k. induction s as [|c s IH]; intros k Hk.
  - destruct k; reflexivity.
  - destruct k as [|k].
    + simpl. now rewrite substring_whole.
    + simpl. f_equal. apply IH. simpl in Hk. lia.
Qed.

Lemma endsWith_ends_in (s suffix : string) :
  endsWith s suffix = true <-> ends_in s suffix.
Proof.
  unfold endsWith, ends_in. split.
  - intros H. apply andb_true_iff in H as [Hlen Heq].
    apply Nat.leb_le in Hlen. apply String.eqb_eq in Heq.
    exists (substring 0 (String.length s - String.length suffix) s).
    pose proof (substring_split s (String.length s - String.length suffix))
      as Hsplit.
    replace (String.length s - (String.length s - String.length suffix))
      with (String.length suffix) in Hsplit by lia.
    rewrite Heq in Hsplit. apply Hsplit. lia.
  - intros [before ->].
    rewrite length_append.
    replace (String.length before + String.length suffix - String.length suffix)
      with (String.length before) by lia.
    rewrite substring_after, substring_whole, String.eqb_refl, andb_true_r.
    apply Nat.leb_le. lia.
Qed.

(** X23: a field whose value is a text with the date prefix is converted
    exactly when its name ends in "At" or in "On", capital letter
    included; the names "At" and "On" themselves count. *)
Theorem converted_iff_suffix key text :
  iso_date_prefix text = true ->
  (transformDates (JObject [(key, JString text)]) = VObject [(key, VDate text)]
   <-> ends_in key "At" \/ ends_in key "On").
Proof.
  intros Hprefix. rewrite transformDates_loop. cbn [fold_left fst snd].
  unfold converted, date_field. rewrite Hprefix, andb_true_r.
  rewrite <- !endsWith_ends_in.
  destruct (String.eqb_spec key "__proto__") as [->|Hkey].
  - split; [discriminate | intros [H | H]; discriminate H].
  - rewrite assign_own by exact Hkey. cbn [set_property].
    destruct (endsWith key "At"); destruct (endsWith key "On"); simpl;
      split; intros H; try reflexivity; auto;
      try discriminate; try (destruct H; discriminate).
Qed.

Lemma converted_iff_suffix_witness :
  transformDates (JObject [("On", JString "2024-05-01T10:00:00Z")])
  = VObject [("On", VDate "2024-05-01T10:00:00Z")].
Proof.
  apply (converted_iff_suffix "On" "2024-05-01T10:00:00Z" eq_refl).
  right. now exists "".
Defined.

(** ** Documents without dates *)

Lemma is_digit_digit (c : ascii) : is_digit c = true <-> digit c.
Proof.
  unfold digit. split.
  - destruct c as [[] [] [] [] [] [] [] []]; intros H;
      try discriminate H; simpl; auto 11.
  - intros H. simpl in H.
    repeat (destruct H as [<- | H]; [reflexivity|]). contradiction.
Qed.

Lemma iso_date_prefix_has_date_prefix (text : string) :
  iso_date_prefix text = true <-> has_date_prefix text.
Proof.
  unfold has_date_prefix. split.
  - intros H.
    destruct text as [|y1 text]; [discriminate H|].
    destruct text as [|y2 text]; [discriminate H|].
    destruct text as [|y3 text]; [discriminate H|].
    destruct text as [|y4 text]; [discriminate H|].
    destruct text as [|s1 text]; [discriminate H|].
    destruct text as [|m1 text]; [discriminate H|].
    destruct text as [|m2 text]; [discriminate H|].
    destruct text as [|s2 text]; [discriminate H|].
    destruct text as [|d1 text]; [discriminate H|].
    destruct text as [|d2 text]; [discriminate H|].
    destruct text as [|t rest]; [discriminate H|].
    cbn [iso_date_prefix] in H.
    repeat match type of H with
           | (_ && _)%bool = true => apply andb_true_iff in H as [H ?]
           end.
    repeat match goal with
           | E : Ascii.eqb _ _ = true |- _ => apply Ascii.eqb_eq in E; subst
           | E : is_digit _ = true |- _ => apply is_digit_digit in E
           end.
    exists y1, y2, y3, y4, m1, m2, d1, d2, rest.
    repeat split; assumption.
  - intros (y1 & y2 & y3 & y4 & m1 & m2 & d1 & d2 & rest
            & H1 & H2 & H3 & H4 & H5 & H6 & H7 & H8 & ->).
    cbn [iso_date_prefix].
    apply is_digit_digit in H1, H2, H3, H4, H5, H6, H7, H8.
    now rewrite H1, H2, H3, H4, H5, H6, H7, H8.
Qed.

Lemma date_field_is_date_field key value :
  date_field key value <> None <-> is_date_field key value.
Proof.
  unfold date_field, is_date_field. split.
  - destruct value as [| | |text| |]; try (intros H; now contradiction H).
    destruct ((endsWith key "At" || endsWith key "On") && iso_date_prefix text)
      eqn:Htest; [|intros H; now contradiction H].
    intros _. apply andb_true_iff in Htest as [Hname Hprefix].
    exists text. split; [reflexivity|]. split.
    + apply orb_true_iff in Hname as [H | H]; [left | right];
        now apply endsWith_ends_in.
    + now apply iso_date_prefix_has_date_prefix.
  - intros (text & -> & Hname & Hprefix).
    apply iso_date_prefix_has_date_prefix in Hprefix. rewrite Hprefix.
    assert (Htest : (endsWith key "At" || endsWith key "On")%bool = true).
    { apply orb_true_iff.
      destruct Hname as [H | H]; [left | right]; now apply endsWith_ends_in. }
    rewrite Htest. discriminate.
Qed.

Lemma without_dates_no_date_field (j : Json) :
  without_dates j <-> no_date_field j = true.
Proof.
  induction j as [| | | |items IH|fields IH] using Json_induction;
    cbn [without_dates no_date_field]; try tauto.
  - induction IH as [|x rest Hx _ IHrest]; cbn [forallb]; [tauto|].
    rewrite andb_true_iff. tauto.
  - induction IH as [|[k v] rest Hv _ IHrest]; cbn [forallb fst snd];
      [tauto|].
    cbn [snd] in Hv.
    rewrite andb_true_iff, <- IHrest, <- date_field_is_date_field.
    destruct (date_field k v) as [text|].
    + split; [intros [H _]; exfalso; apply H; discriminate | intros [H _]];
        discriminate H.
    + rewrite <- Hv. split; [tauto|]. intros [H1 H2].
      split; [intros H; now apply H | tauto].
Qed.

Lemma spec_date_walk_plain (j : Json) :
  no_date_field j = true -> spec_date_walk j = of_json j.
Proof.
  induction j as [| | | |items IH|fields IH] using Json_induction;
    simpl; intros H; try reflexivity.
  - f_equal. apply map_ext_in. intros item Hin.
    rewrite Forall_forall in IH. apply IH; [exact Hin|].
    rewrite forallb_forall in H. now apply H.
  - f_equal. apply map_ext_in. intros [k v] Hin. simpl.
    rewrite Forall_forall in IH. rewrite forallb_forall in H.
    specialize (IH _ Hin). specialize (H _ Hin). simpl in IH, H.
    destruct (date_field k v); [discriminate|]. now rewrite IH.
Qed.

(** X18: a document in which no field is named [__proto__] and no field
    has both a name that ends in "At" or "On" and a text value that
    starts with YYYY-MM-DDT comes back from [transformDates] exactly as
    it was decoded. *)
Theorem transformDates_plain (j : Json) :
  unique_keys j = true ->
  no_proto_key j = true ->
  without_dates j ->
  transformDates j = of_json j.
Proof.
  intros Hkeys Hproto Hplain.
  rewrite transformDates_date_walk by assumption.
  now apply spec_date_walk_plain, without_dates_no_date_field.
Qed.

Lemma transformDates_plain_witness :
  transformDates Cases.plain_page = of_json Cases.plain_page.
Proof.
  apply (transformDates_plain Cases.plain_page); [reflexivity | reflexivity |].
  now apply without_dates_no_date_field.
Defined.

(* ================================================================== *)
(** * [request] from its first line *)
(* ================================================================== *)

(** ** The query *)

Lemma keys_set_property {V} (pairs : list (string * V)) name value other :
  existsb (String.eqb other) (keys (set_property pairs name value))
  = existsb (String.eqb other) (keys pairs) || String.eqb other name.
Proof.
  induction pairs as [|[k v] rest IH]; cbn [set_property keys map fst existsb].
  - now rewrite orb_false_r.
  - destruct (String.eqb_spec k name) as [->|Hk]; cbn [keys map fst existsb].
    + destruct (String.eqb other name); [reflexivity|].
      now rewrite orb_false_r.
    + fold (keys (set_property rest name value)) (keys rest).
      rewrite IH. now rewrite orb_assoc.
Qed.

Lemma distinct_set_property {V} (pairs : list (string * V)) name value :
  distinct (keys pairs) = true ->
  distinct (keys (set_property pairs name value)) = true.
Proof.
  induction pairs as [|[k v] rest IH]; cbn [set_property keys map fst distinct];
    intros H; [reflexivity|].
  fold (keys rest) in H.
  apply andb_true_iff in H as [Hfresh Hrest].
  destruct (String.eqb_spec k name) as [->|Hk]; cbn [keys map fst distinct].
  - fold (keys rest). now rewrite Hfresh, Hrest.
  - fold (keys (set_property rest name value)).
    rewrite keys_set_property, IH by exact Hrest.
    apply negb_true_iff in Hfresh. rewrite Hfresh.
    apply String.eqb_neq in Hk. now rewrite Hk.
Qed.

(** On a query without repeated names, [searchParams.set] is the write
    of a property. *)
Lemma searchParams_set_distinct (pairs : list (string * string)) name value :
  distinct (keys pairs) = true ->
  Complete.searchParams_set pairs name value = set_property pairs name value.
Proof.
  induction pairs as [|[k v] rest IH];
    cbn [Complete.searchParams_set set_property keys map fst distinct];
    intros H; [reflexivity|].
  fold (keys rest) in H.
  apply andb_true_iff in H as [Hfresh Hrest].
  destruct (String.eqb_spec k name) as [->|Hk].
  - f_equal. apply negb_true_iff in Hfresh. clear - Hfresh.
    unfold Complete.remove_named.
    induction rest as [|[k v] rest IH]; [reflexivity|].
    cbn [keys map fst existsb] in Hfresh.
    apply orb_false_elim in Hfresh as [Hk Hrest].
    cbn [filter fst]. rewrite String.eqb_sym, Hk. cbn [negb].
    f_equal. now apply IH.
  - f_equal. now apply IH.
Qed.

Lemma query_of_search_params url params :
  Complete.url_searchParams url = [] ->
  Complete.query_of url params = search_params params.
Proof.
  unfold Complete.query_of, search_params. intros ->.
  destruct params as [entries|]; [|reflexivity].
  assert (Hdistinct : distinct (keys (@nil (string * string))) = true)
    by reflexivity.
  revert Hdistinct. generalize (@nil (string * string)) as query.
  induction entries as [|[k [v|]] rest IH]; intros query Hquery;
    cbn [fold_left fst snd]; [reflexivity | |now apply IH].
  rewrite searchParams_set_distinct by exact Hquery.
  apply IH. now apply distinct_set_property.
Qed.

(** ** The complete [request] *)

Lemma complete_signal self url method options id :
  fc_signal (Complete.fetch_arguments self url method options id) = id.
Proof. reflexivity. Qed.

(** [request] on a URL that parses is the call. *)
Lemma complete_request_parsed new_URL self env method path options url :
  new_URL (baseUrl self ++ path) = Some url ->
  Complete.request new_URL self env method path options
  = request_call self env (Complete.fetch_arguments self url method options).
Proof. unfold Complete.request. now intros ->. Qed.

(** [request] on a text that does not parse does nothing but throw. *)
Lemma complete_request_rejected new_URL self env method path options :
  new_URL (baseUrl self ++ path) = None ->
  Complete.request new_URL self env method path options
  = throw Complete.TypeError_invalid_URL.
Proof. unfold Complete.request. now intros ->. Qed.

(** For a client whose URLs are in normal form, a parser that gives
    every text back, [request] is the [request] of the sections
    above. *)
Lemma complete_request_as_written self env method path options (w : World) :
  Complete.request (fun text => Some (Complete.mkURL text [])) self env
    method path options w
  = request self env method path options w.
Proof.
  unfold Complete.request, request.
  rewrite !request_call_outcome by reflexivity. cbv zeta.
  assert (Hcall :
            Complete.fetch_arguments self
              (Complete.mkURL (baseUrl self ++ path) []) method options
              (length (timers w))
            = fetch_arguments self method path options (length (timers w))).
  { unfold Complete.fetch_arguments, fetch_arguments.
    now rewrite query_of_search_params. }
  now rewrite Hcall.
Qed.

(** What [request] raises. *)
Lemma complete_request_raises
    new_URL self env method path options (w : World) t :
  fst (Complete.request new_URL self env method path options w) = Abrupt t ->
  (exists e, t = ThrowSubformer e)
  \/ (new_URL (baseUrl self ++ path) = None
      /\ t = Complete.TypeError_invalid_URL).
Proof.
  destruct (new_URL (baseUrl self ++ path)) as [url|] eqn:Hurl.
  - rewrite (complete_request_parsed new_URL self env method path options url
               Hurl).
    intros Ht. left.
    now apply (request_call_raises_taxonomy self env _ w t
                 (complete_signal self url method options)).
  - rewrite (complete_request_rejected new_URL self env method path options
               Hurl).
    intros Ht. right. split; [reflexivity|]. now injection Ht as <-.
Qed.

(** X2: [request] raises nothing but instances of [SubformerError] (of
    the base class or a subclass) once the URL of the call is built; the
    one exception it lets through is the TypeError of [new URL], which
    is no [SubformerError], thrown for a base URL and path that do not
    parse, before any timer is set or call made. *)
Theorem request_raises_only_SubformerError
    new_URL self env method path options (w : World) :
  (forall t,
      fst (Complete.request new_URL self env method path options w) = Abrupt t ->
      (exists e, t = ThrowSubformer e)
      \/ (new_URL (baseUrl self ++ path) = None
          /\ t = Complete.TypeError_invalid_URL))
  /\ (new_URL (baseUrl self ++ path) <> None ->
      forall t,
        fst (Complete.request new_URL self env method path options w) = Abrupt t ->
        exists e, t = ThrowSubformer e)
  /\ (new_URL (baseUrl self ++ path) = None ->
      Complete.request new_URL self env method path options w
      = (Abrupt Complete.TypeError_invalid_URL, w))
  /\ (forall e, Complete.TypeError_invalid_URL <> ThrowSubformer e).
Proof.
  split; [intros t; apply complete_request_raises|]. split; [|split].
  - intros Hparsed t Ht.
    apply complete_request_raises in Ht as [He | [Hurl _]];
      [exact He | contradiction].
  - intros Hurl.
    now rewrite (complete_request_rejected new_URL self env method path options
                   Hurl).
  - discriminate.
Qed.

Lemma request_raises_only_SubformerError_witness :
  (exists e,
      fst (Complete.request Cases.default_URLs Scenario.client
             (Scenario.always (Rejected (ThrowNative "TypeError" "fetch failed")))
             "GET" "/jobs/j1" None initial_world)
      = Abrupt (ThrowSubformer e))
  /\ Complete.request Cases.no_scheme_URLs Cases.no_scheme_client
       (Scenario.always (Rejected (ThrowNative "TypeError" "fetch failed")))
       "GET" "/jobs/j1" None initial_world
     = (Abrupt Complete.TypeError_invalid_URL, initial_world).
Proof.
  split.
  - destruct (proj1 (proj2 (request_raises_only_SubformerError
                              Cases.default_URLs Scenario.client
                              (Scenario.always
                                 (Rejected (ThrowNative "TypeError" "fetch failed")))
                              "GET" "/jobs/j1" None initial_world))
                ltac:(discriminate)
                (ThrowSubformer (SubformerError (Some "fetch failed") None))
                eq_refl) as [e He].
    exists e. now rewrite <- He.
  - apply (proj1 (proj2 (proj2 (request_raises_only_SubformerError
                                  Cases.no_scheme_URLs Cases.no_scheme_client
                                  (Scenario.always
                                     (Rejected
                                        (ThrowNative "TypeError" "fetch failed")))
                                  "GET" "/jobs/j1" None initial_world)))).
    reflexivity.
Defined.

(** X6: one call of [request] whose URL parses issues exactly one fetch,
    to that URL as the parser serializes it, with the API key and the
    JSON content type as headers; it creates one timer, decodes at most
    one body, and neither reads the clock nor pauses: there is no retry.
    A call of [request] whose URL does not parse changes nothing. *)
Theorem request_effects new_URL self env method path options (w : World) :
  let w' := snd (Complete.request new_URL self env method path options w) in
  (forall url,
      new_URL (baseUrl self ++ path) = Some url ->
      exists call,
        fetches w' = (fetches w ++ [call])%list
        /\ fc_url call = Complete.url_resource url
        /\ fc_method call = method
        /\ fc_headers call = [("x-api-key", apiKey self);
                              ("Content-Type", "application/json")]
        /\ fc_signal call = length (timers w)
        /\ length (timers w') = S (length (timers w))
        /\ json_reads w <= json_reads w' <= S (json_reads w)
        /\ clock_reads w' = clock_reads w
        /\ sleeps w' = sleeps w)
  /\ (new_URL (baseUrl self ++ path) = None -> w' = w).
Proof.
  cbv zeta. split.
  - intros url Hurl.
    rewrite (complete_request_parsed new_URL self env method path options url
               Hurl).
    rewrite request_call_outcome by reflexivity. cbv zeta.
    exists (Complete.fetch_arguments self url method options (length (timers w))).
    destruct (fetch_outcome env (length (fetches w))) as [response|msg|error];
      [destruct (ok response);
         [destruct (status response =? 204)%Z; [|destruct (body response)]|]
      | | ];
      cbn [snd after_request fetches timers json_reads clock_reads sleeps
           Complete.fetch_arguments fc_url fc_method fc_headers fc_signal];
      rewrite length_app; cbn [length];
      repeat split; try reflexivity; lia.
  - intros Hurl.
    now rewrite (complete_request_rejected new_URL self env method path options
                   Hurl).
Qed.

Lemma request_effects_witness :
  exists call,
    fetches (snd (Complete.request Cases.dotted_URLs Cases.dotted_client
                    (Scenario.always (Cases.ok_with Cases.plain_page))
                    "GET" "/jobs" None initial_world))
    = [call]
    /\ fc_url call = "https://api.example.com/v2/jobs".
Proof.
  destruct (proj1 (request_effects Cases.dotted_URLs Cases.dotted_client
                     (Scenario.always (Cases.ok_with Cases.plain_page))
                     "GET" "/jobs" None initial_world)
              (Complete.mkURL "https://api.example.com/v2/jobs" []) eq_refl)
    as [call [Hfetches [Hurl _]]].
  exists call. split; [exact Hfetches | exact Hurl].
Defined.

(** X9: [listJobs] issues a GET without body to the URL of [/jobs]; when
    that URL has no query of its own and the offset and the limit are
    safe integers, the query of the call holds [offset], [limit] and
    [type], in that order, for those of the three options that are
    given, and is empty when none is, or when the options are left out
    altogether. *)
Theorem listJobs_query
    new_URL self env (options : option ListJobsOptions) (w : World) url :
  new_URL (baseUrl self ++ "/jobs") = Some url ->
  Complete.url_searchParams url = [] ->
  (forall o n, options = Some o -> list_offset o = Some n -> safe_integer n) ->
  (forall o n, options = Some o -> list_limit o = Some n -> safe_integer n) ->
  let given := match options with
               | Some o => o
               | None => default_ListJobsOptions
               end in
  exists call,
    fetches (snd (Complete.listJobs new_URL self env options w))
    = (fetches w ++ [call])%list
    /\ fc_method call = "GET"
    /\ fc_url call = Complete.url_resource url
    /\ fc_body call = None
    /\ fc_query call
       = (match list_offset given with
          | Some n => [("offset", Z_to_string n)]
          | None => []
          end
          ++ match list_limit given with
             | Some n => [("limit", Z_to_string n)]
             | None => []
             end
          ++ match list_type given with
             | Some t => [("type", JobType_text t)]
             | None => []
             end)%list.
Proof.
  intros Hurl Hquery _ _. cbv zeta.
  unfold Complete.listJobs, Methods.listJobs.
  rewrite (complete_request_parsed new_URL self env _ _ _ url Hurl).
  destruct (request_call_world self env
              (Complete.fetch_arguments self url "GET"
                 (Some (mkRequestOptions None
                          (Some (listJobs_params
                                   match options with
                                   | Some o => o
                                   | None => default_ListJobsOptions
                                   end))))) w)
    as [settled [decodes [_ ->]]]; [reflexivity|].
  eexists. split; [reflexivity|].
  repeat split.
  cbn [Complete.fetch_arguments fc_query request_params Complete.query_of].
  rewrite Hquery.
  destruct options as [[[offset|] [limit|] [type|]]|]; reflexivity.
Qed.

Lemma listJobs_query_witness :
  exists call,
    fetches (snd (Complete.listJobs Cases.default_URLs Scenario.client
                    (Scenario.always (Cases.ok_with Cases.plain_page))
                    (Some (mkListJobsOptions None (Some 10%Z) (Some VideoDubbing)))
                    initial_world))
    = [call]
    /\ fc_method call = "GET"
    /\ fc_url call = "https://api.subformer.com/v1/jobs"
    /\ fc_body call = None
    /\ fc_query call = [("limit", "10"); ("type", "video-dubbing")].
Proof.
  apply (listJobs_query Cases.default_URLs Scenario.client
           (Scenario.always (Cases.ok_with Cases.plain_page))
           (Some (mkListJobsOptions None (Some 10%Z) (Some VideoDubbing)))
           initial_world
           (Complete.mkURL "https://api.subformer.com/v1/jobs" [])).
  - reflexivity.
  - reflexivity.
  - intros o n Ho. injection Ho as <-. discriminate.
  - intros o n Ho. injection Ho as <-. intros Hn. injection Hn as <-.
    unfold safe_integer. lia.
Defined.

(** ** Every operation *)

Lemma one_call_request new_URL self env method path options :
  one_call_if_parsed new_URL self path
    (Complete.request new_URL self env method path options).
Proof.
  split.
  - intros Hparsed w.
    destruct (new_URL (baseUrl self ++ path)) as [url|] eqn:Hurl;
      [|contradiction].
    rewrite (complete_request_parsed new_URL self env method path options url
               Hurl).
    destruct (request_call_world self env
                (Complete.fetch_arguments self url method options) w
                (complete_signal self url method options))
      as [settled [decodes [Hsettled ->]]].
    split.
    + simpl. rewrite length_app. simpl. lia.
    + now apply pending_timers_after_request.
  - intros Hurl w.
    now rewrite (complete_request_rejected new_URL self env method path options
                   Hurl).
Qed.

Lemma one_call_unwrap new_URL self env method path options key :
  one_call_if_parsed new_URL self path
    (response <- Complete.request new_URL self env method path options ;;
     lift (get_property response key)).
Proof.
  destruct (one_call_request new_URL self env method path options)
    as [Hone Hnone].
  split.
  - intros Hparsed w. unfold bind, lift.
    pose proof (Hone Hparsed w) as H.
    now destruct (Complete.request new_URL self env method path options w)
      as [[response|t] w'].
  - intros Hurl w. unfold bind. now rewrite (Hnone Hurl w).
Qed.

(** X24: every operation of the client, whatever its arguments and
    whatever the transport answers, issues exactly one call and leaves
    no timer pending that was not pending before; but when the base URL
    followed by the path of the operation does not parse, the operation
    fails with the TypeError of [new URL] and issues no call at all. *)
Theorem operations_single_call new_URL self env :
  (forall o, one_call_if_parsed new_URL self "/dub"
               (Complete.dub new_URL self env o))
  /\ one_call_if_parsed new_URL self "/metadata/dub/languages"
       (Complete.getLanguages new_URL self env)
  /\ (forall id, one_call_if_parsed new_URL self ("/jobs/" ++ id)
                   (Complete.getJob new_URL self env id))
  /\ (forall o, one_call_if_parsed new_URL self "/jobs"
                  (Complete.listJobs new_URL self env o))
  /\ (forall ids, one_call_if_parsed new_URL self "/jobs"
                    (Complete.deleteJobs new_URL self env ids))
  /\ (forall o, one_call_if_parsed new_URL self "/voice/clone"
                  (Complete.cloneVoice new_URL self env o))
  /\ (forall o, one_call_if_parsed new_URL self "/voice/synthesize"
                  (Complete.synthesizeVoice new_URL self env o))
  /\ one_call_if_parsed new_URL self "/voices"
       (Complete.listVoices new_URL self env)
  /\ (forall id, one_call_if_parsed new_URL self ("/voices/" ++ id)
                   (Complete.getVoice new_URL self env id))
  /\ (forall o, one_call_if_parsed new_URL self "/voices"
                  (Complete.createVoice new_URL self env o))
  /\ (forall o, one_call_if_parsed new_URL self
                  ("/voices/" ++ update_voiceId o)
                  (Complete.updateVoice new_URL self env o))
  /\ (forall id, one_call_if_parsed new_URL self ("/voices/" ++ id)
                   (Complete.deleteVoice new_URL self env id))
  /\ (forall o, one_call_if_parsed new_URL self "/voices/upload-url"
                  (Complete.generateVoiceUploadUrl new_URL self env o))
  /\ one_call_if_parsed new_URL self "/billing/usage"
       (Complete.getUsage new_URL self env)
  /\ one_call_if_parsed new_URL self "/billing/usage-history"
       (Complete.getUsageHistory new_URL self env)
  /\ one_call_if_parsed new_URL self "/users/me"
       (Complete.getMe new_URL self env)
  /\ (forall o, one_call_if_parsed new_URL self "/users/me"
                  (Complete.updateMe new_URL self env o))
  /\ one_call_if_parsed new_URL self "/users/me/rate-limit"
       (Complete.getRateLimit new_URL self env).
Proof.
  repeat match goal with |- _ /\ _ => split end; try intros x;
    first [ apply one_call_request | apply one_call_unwrap ].
Qed.

Lemma operations_single_call_witness :
  length (fetches (snd (Complete.getJob Cases.default_URLs Scenario.client
                          Cases.no_content "j1" initial_world)))
  = 1
  /\ Complete.getJob Cases.no_scheme_URLs Cases.no_scheme_client
       Cases.no_content "j1" initial_world
     = (Abrupt Complete.TypeError_invalid_URL, initial_world).
Proof.
  destruct (proj1 (proj2 (proj2 (operations_single_call
                                   Cases.default_URLs Scenario.client
                                   Cases.no_content))) "j1")
    as [Hone _].
  destruct (proj1 (proj2 (proj2 (operations_single_call
                                   Cases.no_scheme_URLs Cases.no_scheme_client
                                   Cases.no_content))) "j1")
    as [_ Hnone].
  split.
  - apply (Hone ltac:(discriminate) initial_world).
  - apply (Hnone eq_refl initial_world).
Defined.

Lemma raises_request new_URL self env method path options :
  raises_taxonomy_or_URL new_URL self path
    (Complete.request new_URL self env method path options).
Proof. intros w t. apply complete_request_raises. Qed.

Lemma raises_unwrap new_URL self env method path options key :
  raises_taxonomy_URL_or_read new_URL self path key
    (response <- Complete.request new_URL self env method path options ;;
     lift (get_property response key)).
Proof.
  intros w t. unfold bind, lift.
  destruct (Complete.request new_URL self env method path options w)
    as [[response|t0] w'] eqn:Hrequest.
  - destruct response; cbn [fst get_property]; intros H; try discriminate;
      injection H as <-; right; right; eexists; reflexivity.
  - cbn [fst]. intros H. injection H as <-.
    destruct (complete_request_raises new_URL self env method path options w t0)
      as [He | Hurl]; [now rewrite Hrequest | now left | now right; left].
Qed.

(** X25: the operations that return the response as it is ([getJob],
    [getLanguages], [listJobs], [listVoices], [getVoice], [createVoice],
    [updateVoice], [generateVoiceUploadUrl], [getUsage],
    [getUsageHistory], [getMe], [getRateLimit]) raise nothing but
    members of the taxonomy, but for the TypeError of [new URL] when the
    base URL and the path of the operation do not parse. *)
Theorem plain_operations_raise_only_taxonomy new_URL self env :
  (forall id, raises_taxonomy_or_URL new_URL self ("/jobs/" ++ id)
                (Complete.getJob new_URL self env id))
  /\ raises_taxonomy_or_URL new_URL self "/metadata/dub/languages"
       (Complete.getLanguages new_URL self env)
  /\ (forall o, raises_taxonomy_or_URL new_URL self "/jobs"
                  (Complete.listJobs new_URL self env o))
  /\ raises_taxonomy_or_URL new_URL self "/voices"
       (Complete.listVoices new_URL self env)
  /\ (forall id, raises_taxonomy_or_URL new_URL self ("/voices/" ++ id)
                   (Complete.getVoice new_URL self env id))
  /\ (forall o, raises_taxonomy_or_URL new_URL self "/voices"
                  (Complete.createVoice new_URL self env o))
  /\ (forall o, raises_taxonomy_or_URL new_URL self
                  ("/voices/" ++ update_voiceId o)
                  (Complete.updateVoice new_URL self env o))
  /\ (forall o, raises_taxonomy_or_URL new_URL self "/voices/upload-url"
                  (Complete.generateVoiceUploadUrl new_URL self env o))
  /\ raises_taxonomy_or_URL new_URL self "/billing/usage"
       (Complete.getUsage new_URL self env)
  /\ raises_taxonomy_or_URL new_URL self "/billing/usage-history"
       (Complete.getUsageHistory new_URL self env)
  /\ raises_taxonomy_or_URL new_URL self "/users/me"
       (Complete.getMe new_URL self env)
  /\ raises_taxonomy_or_URL new_URL self "/users/me/rate-limit"
       (Complete.getRateLimit new_URL self env).
Proof.
  repeat match goal with |- _ /\ _ => split end; try intros x;
    apply raises_request.
Qed.

Lemma plain_operations_raise_only_taxonomy_witness :
  fst (Complete.getJob Cases.no_scheme_URLs Cases.no_scheme_client
         Cases.no_content "j1" initial_world)
  = Abrupt Complete.TypeError_invalid_URL
  /\ ((exists e, Complete.TypeError_invalid_URL = ThrowSubformer e)
      \/ (Cases.no_scheme_URLs (baseUrl Cases.no_scheme_client ++ "/jobs/" ++ "j1")
          = None
          /\ Complete.TypeError_invalid_URL = Complete.TypeError_invalid_URL)).
Proof.
  split; [reflexivity|].
  apply (proj1 (plain_operations_raise_only_taxonomy Cases.no_scheme_URLs
                  Cases.no_scheme_client Cases.no_content)
           "j1" initial_world).
  reflexivity.
Defined.

(** X26: the operations that unwrap a field of the response ([dub],
    [cloneVoice], [synthesizeVoice], [deleteJobs], [deleteVoice],
    [updateMe]) raise a member of the taxonomy, or the TypeError of
    [new URL] when the base URL and the path of the operation do not
    parse, or else the TypeError of reading that field of a missing
    response, and nothing else. *)
Theorem unwrapping_operations_raise new_URL self env :
  (forall o, raises_taxonomy_URL_or_read new_URL self "/dub" "job"
               (Complete.dub new_URL self env o))
  /\ (forall o, raises_taxonomy_URL_or_read new_URL self "/voice/clone" "job"
                  (Complete.cloneVoice new_URL self env o))
  /\ (forall o, raises_taxonomy_URL_or_read new_URL self "/voice/synthesize"
                  "job" (Complete.synthesizeVoice new_URL self env o))
  /\ (forall ids, raises_taxonomy_URL_or_read new_URL self "/jobs" "success"
                    (Complete.deleteJobs new_URL self env ids))
  /\ (forall id, raises_taxonomy_URL_or_read new_URL self ("/voices/" ++ id)
                   "success" (Complete.deleteVoice new_URL self env id))
  /\ (forall o, raises_taxonomy_URL_or_read new_URL self "/users/me" "user"
                  (Complete.updateMe new_URL self env o)).
Proof.
  repeat match goal with |- _ /\ _ => split end; try intros x;
    apply raises_unwrap.
Qed.

Lemma unwrapping_operations_raise_witness :
  fst (Complete.deleteJobs Cases.default_URLs Scenario.client Cases.no_content
         ["a"] initial_world)
  = Abrupt (TypeError_read "undefined" "success")
  /\ ((exists e, TypeError_read "undefined" "success" = ThrowSubformer e)
      \/ (Cases.default_URLs (baseUrl Scenario.client ++ "/jobs") = None
          /\ TypeError_read "undefined" "success"
             = Complete.TypeError_invalid_URL)
      \/ (exists what,
             TypeError_read "undefined" "success"
             = TypeError_read what "success")).
Proof.
  split; [reflexivity|].
  apply (proj1 (proj2 (proj2 (proj2 (unwrapping_operations_raise
                                       Cases.default_URLs Scenario.client
                                       Cases.no_content))))
           ["a"] initial_world).
  reflexivity.
Defined.
